(** * ietfdata.mailarchive: a shallow embedding of the mail archive cache

    The development follows [src/ietfdata/mailarchive.py]:

    - [Py]: the Python string operations the module relies on
      ([str.find], slicing with Python's index rules, [str.strip], [in]);
    - [_parse_archive_url] and [_clean_email_text], the private helpers;
    - [Mongo] and [GridFS]: the operations of the document collection and
      of the blob store that the module calls;
    - [MailingList] and [MailArchive]: the two classes, with the mutable
      state (database, blob store, the handle's fields) passed explicitly
      and exceptions as values of [result].

    Integers are [Z], Python [str] is [string] (one [ascii] per code point
    below 256), [bytes] is [list Byte.byte], a [dict] is a [gmap]. *)

From Stdlib Require Import ZArith Ascii String.
From Stdlib.Strings Require Import Byte.
From stdpp Require Import gmap strings list fin_maps sorting.

Local Open Scope Z_scope.

(** ** Exceptions and results *)

Inductive exn : Type :=
  | AttributeError
  | KeyError
  | TypeError
  | ValueError
  | OverflowError
  | UnicodeDecodeError
  | LookupError
  | UnboundLocalError
  | AssertionError
  | RuntimeError
  | NoFile
  | BulkWriteError
  | DuplicateKeyError
  | RecursionError
  | OtherError (tag : string).

Inductive result (A : Type) : Type :=
  | Ok (a : A)
  | Raise (e : exn).
Arguments Ok {A} a.
Arguments Raise {A} e.

Definition is_ok {A} (r : result A) : bool :=
  match r with Ok _ => true | Raise _ => false end.

Definition rbind {A B} (r : result A) (f : A → result B) : result B :=
  match r with Ok a => f a | Raise e => Raise e end.

(** [try: body except: handler] with a bare [except], as the source
    writes it: whatever is raised inside [body] is replaced by [handler]. *)
Definition try_except {A} (body : result A) (handler : A) : result A :=
  match body with Ok a => Ok a | Raise _ => Ok handler end.

#[global] Instance result_ret : MRet result := @Ok.
#[global] Instance result_bind : MBind result := λ A B f r, rbind r f.

(** ** Python string operations *)

Module Py.

Definition len (s : string) : Z := Z.of_nat (String.length s).

(** [s.find(needle)]: index of the first occurrence, [-1] when absent. *)
Fixpoint find_from (needle s : string) (i : Z) : Z :=
  if String.prefix needle s then i
  else match s with
       | EmptyString => -1
       | String _ s' => find_from needle s' (i + 1)
       end.

Definition find (s needle : string) : Z := find_from needle s 0.

(** [needle in s] *)
Definition contains (needle s : string) : bool := 0 <=? find s needle.

(** A slice bound is clamped as Python does: a negative bound counts
    from the end, and both ends are cut to [0 .. len s]. *)
Definition slice_index (n i : Z) : Z :=
  if i <? 0 then Z.max 0 (i + n) else Z.min i n.

(** [s[lo:hi]]; [None] is an omitted bound. *)
Definition slice (s : string) (lo hi : option Z) : string :=
  let n := len s in
  let a := match lo with Some i => slice_index n i | None => 0 end in
  let b := match hi with Some i => slice_index n i | None => n end in
  String.substring (Z.to_nat a) (Z.to_nat (b - a)) s.

(** [str.isspace] on the code points below 256. *)
Definition isspace (c : ascii) : bool :=
  let n := Z.of_nat (nat_of_ascii c) in
  ((9 <=? n) && (n <=? 13)) || ((28 <=? n) && (n <=? 32))
  || (n =? 133) || (n =? 160).

Fixpoint lstrip (s : string) : string :=
  match s with
  | EmptyString => EmptyString
  | String c s' => if isspace c then lstrip s' else s
  end.

Definition rstrip (s : string) : string :=
  String.rev (lstrip (String.rev s)).

Definition strip (s : string) : string := rstrip (lstrip s).

(** [s.startswith(p)] *)
Definition startswith (s p : string) : bool := String.prefix p s.

(** [sorted(l)] on a list of integers. *)
Definition sorted (l : list Z) : list Z := merge_sort Z.le l.

End Py.

(** ** Private helper functions *)

(** [_parse_archive_url] (lines 58-65). *)
Definition _parse_archive_url (archive_url : string) : string * string :=
  let aa_start := Py.find archive_url "://mailarchive.ietf.org/arch/msg" in
  let aa_uri := Py.strip (Py.slice archive_url (Some (aa_start + 33)) None) in
  let mailing_list := Py.slice aa_uri None (Some (Py.find aa_uri "/")) in
  let message_hash := Py.slice aa_uri (Some (Py.find aa_uri "/" + 1)) None in
  (mailing_list, message_hash).

(** ** The libraries the module calls

    The [email] package, [email.utils.parsedate], [time.mktime] with
    [datetime.fromtimestamp], [datetime.strptime], [BeautifulSoup],
    [EmailReplyParser] and [requests] are not part of this repository.
    They are taken as an interface: every call the source makes inside a [try] block may
    raise; [e[name]] returns [None] for a missing header and does not
    raise, as the [email.message] documentation states. *)

Class Externals := {
  Message : Type;
  Part : Type;
  TimeTuple : Type;
  (** [email.message_from_bytes(b, policy=policy.default)] *)
  message_from_bytes : list byte → Message;
  (** [e[name]] *)
  msg_getitem : Message → string → option string;
  (** [e.items()] *)
  msg_items : Message → result (list (string * string));
  (** [email.get_body()]: a part, or [None] *)
  get_body : Message → result (option Part);
  (** [raw_body.get_payload(decode=True)]: bytes, or [None] *)
  get_payload_decode : Part → result (option (list byte));
  (** [raw_body.get_content_charset()] *)
  get_content_charset : Part → result (option string);
  (** [b.decode(charset)] *)
  bytes_decode : list byte → string → result string;
  (** [BeautifulSoup(text, "lxml").text] *)
  soup_text : string → result string;
  (** [EmailReplyParser.parse_reply(text)] *)
  parse_reply : string → result string;
  (** [email.utils.parsedate(value)] *)
  parsedate : option string → result (option TimeTuple);
  (** [datetime.fromtimestamp(time.mktime(t))], as seconds *)
  fromtimestamp_mktime : TimeTuple → result Z;
  (** [datetime.strptime(s, "%Y-%m-%dT%H:%M:%S")], as seconds *)
  strptime : string → result Z;
  (** [requests.get(url).url]: where the server redirects to *)
  requests_get_url : string → result string;
}.

Section Helpers.
Context `{Externals}.

(** The statements inside the [try] of [_clean_email_text]
    (lines 70-77).  Calling a method on [None] raises
    [AttributeError]; [decode(None)] raises [TypeError]. *)
Definition clean_email_text_try (email : Message) : result string :=
  raw_body ← get_body email;
  raw_body ← (match raw_body with
              | Some p => Ok p
              | None => Raise AttributeError
              end);
  clean_text_bytes ← get_payload_decode raw_body;
  charset ← get_content_charset raw_body;
  clean_text ←
    (match charset with
     | Some _ =>
         match clean_text_bytes with
         | None => Raise AttributeError
         | Some b =>
             charset' ← get_content_charset raw_body;
             match charset' with
             | Some c => bytes_decode b c
             | None => Raise TypeError
             end
         end
     | None =>
         match clean_text_bytes with
         | Some b => bytes_decode b "utf-8"
         | None => Raise AttributeError
         end
     end);
  clean_text ← soup_text clean_text;
  parse_reply clean_text.

(** [_clean_email_text] (lines 68-80): the bare [except] turns every
    exception of the block into the empty string. *)
Definition _clean_email_text (email : Message) : result string :=
  try_except (clean_email_text_try email) "".

(** The statements inside the first [try] of the fetch loop of
    [update] (lines 212-216). *)
Definition parse_timestamp_try (e : Message) : result (option Z) :=
  msg_date ← parsedate (msg_getitem e "Date");
  match msg_date with
  | Some t => ts ← fromtimestamp_mktime t; Ok (Some ts)
  | None => Ok None
  end.

(** The timestamp block of [update] (lines 211-218). *)
Definition parse_timestamp (e : Message) : result (option Z) :=
  try_except (parse_timestamp_try e) None.

(** A dict comprehension [{k : v for k, v in items}]: later items win. *)
Definition dict_of_items (items : list (string * string)) : gmap string string :=
  foldl (λ m kv, <[kv.1 := kv.2]> m) ∅ items.

(** The headers block of [update] (lines 219-222). *)
Definition collect_headers (e : Message) : result (gmap string string) :=
  try_except (items ← msg_items e; Ok (dict_of_items items)) ∅.

End Helpers.

(** ** The document collection [db.messages]

    A stored document has the fields that [update] writes (lines 224-230)
    and no others; [doc_field] gives the value under a field name, so a
    query on a name that [update] never writes finds the field missing. *)

Inductive bson : Type :=
  | BNull
  | BInt (z : Z)
  | BStr (s : string)
  | BDate (t : Z)
  | BOid (n : N)
  | BDict (m : gmap string string).

#[global] Instance bson_eq_dec : EqDecision bson.
Proof. solve_decision. Defined.

Record Document := mkDocument {
  doc_list : string;
  doc_imap_uid : Z;
  doc_gridfs_id : N;
  doc_size : Z;
  doc_timestamp : option Z;
  doc_headers : gmap string string;
  doc_body : string;
}.

#[global] Instance Document_eq_dec : EqDecision Document.
Proof. solve_decision. Defined.

Definition doc_field (d : Document) (k : string) : option bson :=
  if decide (k = "list") then Some (BStr (doc_list d))
  else if decide (k = "imap_uid") then Some (BInt (doc_imap_uid d))
  else if decide (k = "gridfs_id") then Some (BOid (doc_gridfs_id d))
  else if decide (k = "size") then Some (BInt (doc_size d))
  else if decide (k = "timestamp") then
    Some (match doc_timestamp d with Some t => BDate t | None => BNull end)
  else if decide (k = "headers") then Some (BDict (doc_headers d))
  else if decide (k = "body") then Some (BStr (doc_body d))
  else None.

Module Mongo.

(** A query condition on one field: equality, or [{"$gt": lo, "$lt": hi}]. *)
Inductive cond : Type :=
  | Eq (v : bson)
  | GtLt (lo hi : bson).

Definition query : Type := list (string * cond).

(** [$gt] and [$lt] compare values of one type only: a date bound
    selects dates, never [null] and never a missing field. *)
Definition bson_lt (a b : bson) : bool :=
  match a, b with
  | BInt x, BInt y => x <? y
  | BDate x, BDate y => x <? y
  | _, _ => false
  end.

(** An equality condition on [null] also selects a missing field. *)
Definition cond_holds (c : cond) (v : option bson) : bool :=
  match c, v with
  | Eq w, Some x => bool_decide (x = w)
  | Eq w, None => bool_decide (w = BNull)
  | GtLt lo hi, Some x => bson_lt lo x && bson_lt x hi
  | GtLt _ _, None => false
  end.

Definition matches (q : query) (d : Document) : bool :=
  forallb (λ kc, cond_holds kc.2 (doc_field d kc.1)) q.

Definition find (q : query) (coll : list Document) : list Document :=
  List.filter (matches q) coll.

Definition count (q : query) (coll : list Document) : Z :=
  Z.of_nat (length (find q coll)).

Definition find_one (q : query) (coll : list Document) : option Document :=
  head (find q coll).

(** [delete_one]: the first matching document is removed. *)
Fixpoint delete_one (q : query) (coll : list Document) : list Document :=
  match coll with
  | [] => []
  | d :: rest => if matches q d then rest else d :: delete_one q rest
  end.

(** The unique index on [(list, imap_uid)] that [MailArchive.__init__]
    creates (line 291). *)
Definition index_key (d : Document) : string * Z := (doc_list d, doc_imap_uid d).

Definition index_clash (d : Document) (coll : list Document) : bool :=
  bool_decide (index_key d ∈ index_key <$> coll).

(** The collection split at its first document matching [q]. *)
Fixpoint split_first (q : query) (coll : list Document)
    : option (list Document * Document * list Document) :=
  match coll with
  | [] => None
  | d :: rest =>
      if matches q d then Some ([], d, rest)
      else match split_first q rest with
           | Some (pre, m, post) => Some (d :: pre, m, post)
           | None => None
           end
  end.

(** [ReplaceOne(q, d, upsert=True)]: the first match is replaced in
    place; without a match [d] is inserted.  Either way the unique index
    rejects a second document with the key of [d]. *)
Definition replace_one_upsert (q : query) (d : Document)
    (coll : list Document) : result (list Document) :=
  match split_first q coll with
  | Some (pre, _, post) =>
      if index_clash d (pre ++ post) then Raise DuplicateKeyError
      else Ok (pre ++ d :: post)
  | None =>
      if index_clash d coll then Raise DuplicateKeyError
      else Ok (coll ++ [d])
  end.

(** [bulk_write(ops)], ordered: the operations run in order and the
    first failure stops the batch with [BulkWriteError]; what ran before
    it stays written. *)
Fixpoint bulk_write (ops : list (query * Document)) (coll : list Document)
    : list Document * result unit :=
  match ops with
  | [] => (coll, Ok tt)
  | (q, d) :: ops' =>
      match replace_one_upsert q d coll with
      | Ok coll' => bulk_write ops' coll'
      | Raise _ => (coll, Raise BulkWriteError)
      end
  end.

End Mongo.

(** ** The state behind a [MailingList]

    [db_messages] is the collection [db.messages], in insertion order.
    [db_aa_cache] is the collection [db.aa_cache]: it has a unique index on
    [list] and is only written by [replace_one] keyed on [list], so it is a
    map from the list name to the stored [archive_urls].  [fs_files] is the
    GridFS bucket; [fs_next] is the source of fresh file ids.
    [db_bulk_writes] records the size of every batch handed to
    [bulk_write], oldest first. *)

Record Backend := mkBackend {
  db_messages : list Document;
  db_aa_cache : gmap string (gmap string Z);
  fs_files : gmap N (list byte);
  fs_next : N;
  db_bulk_writes : list nat;
}.

(** The fields of a [MailingList] object (lines 98-103, 108-113).
    [_last_updated] is unset until the first [update] returns. *)
Record MailingList := mkMailingList {
  _list_name : string;
  _num_messages : Z;
  _archive_urls : gmap string Z;
  _last_updated : option Z;
}.

(** A message as the IMAP server holds it: what [RFC822.SIZE] reports and
    the [RFC822] bytes. *)
Record RemoteMessage := mkRemoteMessage {
  rfc822_size : Z;
  rfc822 : list byte;
}.

Record Env := mkEnv {
  self : MailingList;
  backend : Backend;
}.

(** Computations that read and write [Env] and may raise.  The state
    reached before an exception is kept, as in Python. *)
Definition M (A : Type) : Type := Env → Env * result A.

#[global] Instance M_ret : MRet M := λ A a s, (s, Ok a).
#[global] Instance M_bind : MBind M := λ A B f m s,
  match m s with
  | (s', Ok a) => f a s'
  | (s', Raise e) => (s', Raise e)
  end.

Definition gets {A} (f : Env → A) : M A := λ s, (s, Ok (f s)).
Definition modify (f : Env → Env) : M unit := λ s, (f s, Ok tt).
Definition raise {A} (e : exn) : M A := λ s, (s, Raise e).
Definition lift {A} (r : result A) : M A := λ s, (s, r).

Fixpoint foldM {A B} (f : B → A → M B) (l : list A) (b : B) : M B :=
  match l with
  | [] => mret b
  | x :: l' => b' ← f b x; foldM f l' b'
  end.

Definition set_messages (c : list Document) (b : Backend) : Backend :=
  mkBackend c (db_aa_cache b) (fs_files b) (fs_next b) (db_bulk_writes b).
Definition set_aa_cache (c : gmap string (gmap string Z)) (b : Backend) : Backend :=
  mkBackend (db_messages b) c (fs_files b) (fs_next b) (db_bulk_writes b).
Definition set_files (f : gmap N (list byte)) (b : Backend) : Backend :=
  mkBackend (db_messages b) (db_aa_cache b) f (fs_next b) (db_bulk_writes b).
Definition set_next (n : N) (b : Backend) : Backend :=
  mkBackend (db_messages b) (db_aa_cache b) (fs_files b) n (db_bulk_writes b).
Definition log_bulk_write (n : nat) (b : Backend) : Backend :=
  mkBackend (db_messages b) (db_aa_cache b) (fs_files b) (fs_next b)
            (db_bulk_writes b ++ [n]).

Definition on_backend (f : Backend → Backend) (s : Env) : Env :=
  mkEnv (self s) (f (backend s)).
Definition on_self (f : MailingList → MailingList) (s : Env) : Env :=
  mkEnv (f (self s)) (backend s).

Definition set_num_messages (n : Z) (ml : MailingList) : MailingList :=
  mkMailingList (_list_name ml) n (_archive_urls ml) (_last_updated ml).
Definition set_archive_urls (u : gmap string Z) (ml : MailingList) : MailingList :=
  mkMailingList (_list_name ml) (_num_messages ml) u (_last_updated ml).
Definition set_last_updated (t : Z) (ml : MailingList) : MailingList :=
  mkMailingList (_list_name ml) (_num_messages ml) (_archive_urls ml) (Some t).

(** ** GridFS

    [put] stores the bytes under a fresh id; [get] raises [NoFile] for an
    unknown id and returns a [GridOut] otherwise, here the bytes of the
    file.  A file is deleted with [GridFS.delete(file_id)]; a [GridOut]
    has no method [delete], and looking up a missing attribute of a
    [GridOut] raises [AttributeError]. *)
Module GridFS.

Definition put (data : list byte) : M N := λ s,
  let b := backend s in
  let id := fs_next b in
  (on_backend (λ b, set_next (N.succ id) (set_files (<[id := data]> (fs_files b)) b)) s,
   Ok id).

Definition get (id : N) : M (list byte) := λ s,
  match fs_files (backend s) !! id with
  | Some data => (s, Ok data)
  | None => (s, Raise NoFile)
  end.

(** [cache_file.delete()] on the [GridOut] that [get] returned. *)
Definition gridout_delete (cache_file : list byte) : M unit :=
  raise AttributeError.

End GridFS.

(** ** The IMAP side of [update]

    [mailbox] is the folder ["Shared Folders/" + list_name] as the server
    holds it during the run, keyed by UID.  [imap.fetch(ids, ...)] returns
    a dict with one entry per requested UID that the folder has, in the
    order of the server's answer: ascending by UID. *)
Definition uid_le (p q : Z * RemoteMessage) : Prop := p.1 ≤ q.1.

#[global] Instance uid_le_dec p q : Decision (uid_le p q).
Proof. unfold uid_le. apply _. Defined.

Definition imap_items (mailbox : gmap Z RemoteMessage)
    : list (Z * RemoteMessage) :=
  merge_sort uid_le (map_to_list mailbox).

Definition imap_fetch (mailbox : gmap Z RemoteMessage) (ids : list Z)
    : list (Z * RemoteMessage) :=
  List.filter (λ p, bool_decide (p.1 ∈ ids)) (imap_items mailbox).

Definition imap_search (mailbox : gmap Z RemoteMessage) : list Z :=
  (imap_items mailbox).*1.


(** The record that [MailingList.messages] and [MailArchive.messages]
    yield (lines 84-93).  A field read with [dict.get(k, None)] may be
    [None]. *)
Record MailingListMessage := mkMailingListMessage {
  list_name : string;
  message_id : option string;
  from_addr : option string;
  subject : option string;
  date : option Z;
  in_reply_to : option string;
  references : option string;
  body : string;
}.

(** What a generator does when it is run to its end: the values it
    yields, in order, and the exception that ends it, if any. *)
Definition Generated (A : Type) : Type := list A * option exn.

Fixpoint generate {A B} (f : A → result B) (l : list A) : Generated B :=
  match l with
  | [] => ([], None)
  | x :: l' =>
      match f x with
      | Ok y => let '(ys, e) := generate f l' in (y :: ys, e)
      | Raise e => ([], Some e)
      end
  end.

(** [d.get(k, d.get(k', None))] *)
Definition get2 (h : gmap string string) (k k' : string) : option string :=
  match h !! k with Some v => Some v | None => h !! k' end.

(** The queries of the module. *)
Definition q_list (name : string) : Mongo.query :=
  [("list", Mongo.Eq (BStr name))].
Definition q_list_imap_uid (name : string) (msg_id : Z) : Mongo.query :=
  [("list", Mongo.Eq (BStr name)); ("imap_uid", Mongo.Eq (BInt msg_id))].
Definition q_list_id (name : string) (msg_id : Z) : Mongo.query :=
  [("list", Mongo.Eq (BStr name)); ("id", Mongo.Eq (BInt msg_id))].
Definition q_timestamp (lo hi : Z) : Mongo.query :=
  [("timestamp", Mongo.GtLt (BDate lo) (BDate hi))].
Definition q_list_timestamp (name : string) (lo hi : Z) : Mongo.query :=
  [("list", Mongo.Eq (BStr name)); ("timestamp", Mongo.GtLt (BDate lo) (BDate hi))].

Definition since_default : string := "1970-01-01T00:00:00".
Definition until_default : string := "2038-01-19T03:14:07".

Module MailingList.
Section Methods.
Context `{Externals}.

Definition name (ml : MailingList) : string := _list_name ml.

Definition num_messages (ml : MailingList) : Z := _num_messages ml.

(** [raw_message] (lines 137-141): without a cached row the local
    [message] is never bound, and [return message] raises
    [UnboundLocalError]. *)
Definition raw_message (ml : MailingList) (b : Backend) (msg_id : Z)
    : result Message :=
  match Mongo.find_one (q_list_imap_uid (_list_name ml) msg_id) (db_messages b) with
  | Some cache_metadata =>
      match fs_files b !! doc_gridfs_id cache_metadata with
      | Some data => Ok (message_from_bytes data)
      | None => Raise NoFile
      end
  | None => Raise UnboundLocalError
  end.

(** [message] (lines 156-157).  The arguments of the constructor are
    evaluated first: [self.raw_message(msg_id)], then
    [self._msg_metadata[msg_id]].  The class only annotates
    [_msg_metadata] (line 102) and nothing assigns it, so reading it
    raises [AttributeError]. *)
Definition message (ml : MailingList) (b : Backend) (msg_id : Z)
    : result MailingListMessage :=
  _ ← raw_message ml b msg_id;
  Raise AttributeError.

(** [message_indices] (lines 144-147). *)
Definition message_indices (ml : MailingList) (b : Backend) : list Z :=
  let cache_metadata := Mongo.find (q_list (_list_name ml)) (db_messages b) in
  let indices := doc_imap_uid <$> cache_metadata in
  Py.sorted indices.

(** [message_from_archive_url] (lines 150-153). *)
Definition message_from_archive_url (ml : MailingList) (b : Backend)
    (archive_url : string) : result MailingListMessage :=
  let '(list_name, msg_hash) := _parse_archive_url archive_url in
  if decide (list_name = _list_name ml) then
    match _archive_urls ml !! msg_hash with
    | Some msg_id => message ml b msg_id
    | None => Raise KeyError
    end
  else Raise AssertionError.

(** The body of the loop of [messages] (lines 165-172), for one
    document.  The arguments are evaluated left to right:
    [message["headers"]["From"]] raises [KeyError] without a [From]
    header, and the next argument evaluates ["headers".get(...)], a
    method that [str] does not have. *)
Definition build_message (ml : MailingList) (message : Document)
    : result MailingListMessage :=
  let message_id := get2 (doc_headers message) "Message-ID" "Message-Id" in
  match doc_headers message !! "From" with
  | Some from_addr => Raise AttributeError
  | None => Raise KeyError
  end.

(** [messages] (lines 160-172), run to its end. *)
Definition messages (ml : MailingList) (b : Backend) (since until : string)
    : Generated MailingListMessage :=
  match strptime since with
  | Raise e => ([], Some e)
  | Ok lo =>
      match strptime until with
      | Raise e => ([], Some e)
      | Ok hi =>
          generate (build_message ml)
            (Mongo.find (q_list_timestamp (_list_name ml) lo hi) (db_messages b))
      end
  end.

(** [{msg["imap_uid"] : msg for msg in ...}] *)
Definition cached_by_uid (docs : list Document) : gmap Z Document :=
  foldl (λ m d, <[doc_imap_uid d := d]> m) ∅ docs.

(** The body of the first loop of [update] (lines 192-201).  On a size
    mismatch the blob is looked up with [fs.get] (line 198) and
    [cache_file.delete()] is called on what it returns (line 199), which
    raises: the statements after it (lines 200-201) are not reached. *)
Definition check_size (cached_messages : gmap Z Document)
    (msg_fetch : list Z) (item : Z * RemoteMessage) : M (list Z) :=
  let '(msg_id, msg) := item in
  match cached_messages !! msg_id with
  | None => mret (msg_fetch ++ [msg_id])
  | Some c =>
      if decide (doc_size c = rfc822_size msg) then mret msg_fetch
      else
        cache_file ← GridFS.get (doc_gridfs_id c);
        GridFS.gridout_delete cache_file;;
        list_name ← gets (λ s, _list_name (self s));
        modify (on_backend (λ b,
          set_messages (Mongo.delete_one (q_list_imap_uid list_name msg_id)
                                         (db_messages b)) b));;
        mret (msg_fetch ++ [msg_id])
  end.

(** [self._db.messages.bulk_write(cache_replaces)] *)
Definition bulk_write (ops : list (Mongo.query * Document)) : M unit := λ s,
  let '(coll, r) := Mongo.bulk_write ops (db_messages (backend s)) in
  (on_backend (λ b, log_bulk_write (length ops) (set_messages coll b)) s, r).

(** The record that [update] builds for a fetched message
    (lines 211-231): timestamp, headers and body from the parsed
    message, the size from the fetched bytes. *)
Definition normalize (list_name : string) (msg_id : Z) (cache_file_id : N)
    (data : list byte) : result Document :=
  let e := message_from_bytes data in
  timestamp ← parse_timestamp e;
  headers ← collect_headers e;
  body ← _clean_email_text e;
  Ok (mkDocument list_name msg_id cache_file_id
                 (Z.of_nat (length data)) timestamp headers body).

(** The body of the second loop of [update] (lines 205-243).  The
    keepalive (lines 237-241) only sends [NOOP] to the server. *)
Definition fetch_one (acc : list (Mongo.query * Document) * list Z)
    (item : Z * RemoteMessage) : M (list (Mongo.query * Document) * list Z) :=
  let '(cache_replaces, new_msgs) := acc in
  let '(msg_id, msg) := item in
  cache_file_id ← GridFS.put (rfc822 msg);
  let e := message_from_bytes (rfc822 msg) in
  match msg_getitem e "Archived-At" with
  | Some aa =>
      let '(list_name, msg_hash) := _parse_archive_url aa in
      modify (on_self (λ ml,
        set_archive_urls (<[msg_hash := msg_id]> (_archive_urls ml)) ml))
  | None => mret tt
  end;;
  modify (on_self (λ ml, set_num_messages (_num_messages ml + 1) ml));;
  list_name ← gets (λ s, _list_name (self s));
  doc ← lift (normalize list_name msg_id cache_file_id (rfc822 msg));
  let cache_replaces := cache_replaces ++ [(q_list_id list_name msg_id, doc)] in
  cache_replaces ←
    (if decide (1000 < Z.of_nat (length cache_replaces))
     then bulk_write cache_replaces;; mret []
     else mret cache_replaces);
  mret (cache_replaces, new_msgs ++ [msg_id]).

(** [self._db.aa_cache.replace_one({"list": ...}, {...}, upsert=True)] *)
Definition persist_archive_urls : M unit :=
  modify (λ s, on_backend (λ b,
    set_aa_cache (<[_list_name (self s) := _archive_urls (self s)]> (db_aa_cache b)) b) s).

(** [update] (lines 175-254), on the selected folder [mailbox];
    [now] is the clock reading stored in [_last_updated]. *)
Definition update (mailbox : gmap Z RemoteMessage) (now : Z) : M (list Z) :=
  let msg_list := imap_search mailbox in
  list_name ← gets (λ s, _list_name (self s));
  coll ← gets (λ s, db_messages (backend s));
  let cached_messages := cached_by_uid (Mongo.find (q_list list_name) coll) in
  msg_fetch ← foldM (check_size cached_messages) (imap_fetch mailbox msg_list) [];
  '(cache_replaces, new_msgs) ←
    (if decide (0 < Z.of_nat (length msg_fetch)) then
       r ← foldM fetch_one (imap_fetch mailbox msg_fetch) ([], []);
       persist_archive_urls;;
       mret r
     else mret ([], []));
  (if decide (0 < Z.of_nat (length cache_replaces))
   then bulk_write cache_replaces
   else mret tt);;
  modify (on_self (set_last_updated now));;
  mret new_msgs.

Definition last_updated (ml : MailingList) : result Z :=
  match _last_updated ml with
  | Some t => Ok t
  | None => Raise AttributeError
  end.

(** [__init__] (lines 105-126).  Without a persisted index the
    constructor scans [self.messages()]: unpacking a yielded message
    into [index, msg] raises [TypeError], and whatever ends the generator
    ends the constructor. *)
Definition __init__ (b : Backend) (list_name : string)
    : Backend * result MailingList :=
  let n := Mongo.count (q_list list_name) (db_messages b) in
  let ml := mkMailingList list_name n ∅ None in
  match db_aa_cache b !! list_name with
  | Some archive_urls => (b, Ok (set_archive_urls archive_urls ml))
  | None =>
      match messages ml b since_default until_default with
      | (_ :: _, _) => (b, Raise TypeError)
      | ([], Some e) => (b, Raise e)
      | ([], None) => (set_aa_cache (<[list_name := ∅]> (db_aa_cache b)) b, Ok ml)
      end
  end.

End Methods.
End MailingList.

(** ** The archive *)

(** The fields of a [MailArchive] object: the database with its blob
    store, and the handles made so far. *)
Record MailArchive := mkMailArchive {
  _db : Backend;
  _mailing_lists : gmap string MailingList;
}.

Module MailArchive.
Section Methods.
Context `{Externals}.

(** [__init__] (lines 267-295) on the database it connects to: the
    indexes are created and no handle exists yet. *)
Definition __init__ (b : Backend) : MailArchive := mkMailArchive b ∅.

(** [mailing_list] (lines 308-311) *)
Definition mailing_list (mailing_list_name : string) (a : MailArchive)
    : MailArchive * result MailingList :=
  match _mailing_lists a !! mailing_list_name with
  | Some ml => (a, Ok ml)
  | None =>
      match MailingList.__init__ (_db a) mailing_list_name with
      | (b, Ok ml) =>
          (mkMailArchive b (<[mailing_list_name := ml]> (_mailing_lists a)), Ok ml)
      | (b, Raise e) => (mkMailArchive b (_mailing_lists a), Raise e)
      end
  end.

(** [message_from_archive_url] (lines 314-329).  [fuel] bounds the depth
    of the recursion on redirected URLs, as the interpreter's recursion
    limit does. *)
Fixpoint message_from_archive_url (fuel : nat) (archive_url : string)
    (a : MailArchive) : MailArchive * result MailingListMessage :=
  if Py.contains "//www.ietf.org/mail-archive/web/" archive_url then
    match requests_get_url archive_url with
    | Raise e => (a, Raise e)
    | Ok response_url =>
        if Py.contains "//mailarchive.ietf.org/arch/msg" response_url then
          match fuel with
          | O => (a, Raise RecursionError)
          | S fuel' => message_from_archive_url fuel' response_url a
          end
        else (a, Raise AssertionError)
    end
  else if Py.contains "//mailarchive.ietf.org/arch/msg" archive_url then
    let '(list_name, _) := _parse_archive_url archive_url in
    match mailing_list list_name a with
    | (a', Ok ml) =>
        (a', MailingList.message_from_archive_url ml (_db a') archive_url)
    | (a', Raise e) => (a', Raise e)
    end
  else (a, Raise RuntimeError).

(** The body of the loop of [messages] (lines 356-363). *)
Definition build_message (message : Document) : result MailingListMessage :=
  Ok (mkMailingListMessage
        (doc_list message)
        (get2 (doc_headers message) "Message-ID" "Message-Id")
        (get2 (doc_headers message) "From" "from")
        (get2 (doc_headers message) "Subject" "subject")
        (doc_timestamp message)
        (doc_headers message !! "In-Reply-To")
        (doc_headers message !! "References")
        (doc_body message)).

(** [messages] (lines 351-363), run to its end. *)
Definition messages (a : MailArchive) (since until : string)
    : Generated MailingListMessage :=
  match strptime since with
  | Raise e => ([], Some e)
  | Ok lo =>
      match strptime until with
      | Raise e => ([], Some e)
      | Ok hi =>
          generate build_message
            (Mongo.find (q_timestamp lo hi) (db_messages (_db a)))
      end
  end.

(** [mailing_list_names] (lines 298-305), run to its end on the folder
    names that [imap.list_folders()] returns. *)
Fixpoint mailing_list_names (folders : list string) : Generated string :=
  match folders with
  | [] => ([], None)
  | name :: rest =>
      if decide (name = "Shared Folders") then mailing_list_names rest
      else if Py.startswith name "Shared Folders/" then
        let '(names, e) := mailing_list_names rest in
        (Py.slice name (Some 15) None :: names, e)
      else ([], Some AssertionError)
  end.




End Methods.
End MailArchive.

(** A run of [update] on a handle, and a sequence of runs on handles of
    any lists over one database; a run that raises leaves the database as
    it was when the exception left [update]. *)
Definition run_update `{Externals} (ml : MailingList)
    (mailbox : gmap Z RemoteMessage) (now : Z) (b : Backend)
    : Env * result (list Z) :=
  MailingList.update mailbox now (mkEnv ml b).

Fixpoint run_updates `{Externals}
    (runs : list (MailingList * gmap Z RemoteMessage * Z)) (b : Backend)
    : Backend :=
  match runs with
  | [] => b
  | (ml, mailbox, now) :: runs' =>
      run_updates runs' (backend (run_update ml mailbox now b).1)
  end.

(** The database of a new installation. *)
Definition empty_backend : Backend := mkBackend [] ∅ ∅ 0%N [].

(** ** A small instance of the libraries, for the examples

    Messages are lines of ["Name: value"] up to the first line that is not
    of that shape; the rest is the body.  A [Date] header holds a decimal
    number of seconds.  Bodies decode when they are 7-bit. *)
Module Fixture.

Fixpoint split_lines (s : string) : list string :=
  match s with
  | EmptyString => [EmptyString]
  | String c s' =>
      let r := split_lines s' in
      if Ascii.eqb c "010" then EmptyString :: r
      else match r with
           | l :: r' => String c l :: r'
           | [] => [String c EmptyString]
           end
  end.

Fixpoint parse_headers (ls : list string) : list (string * string) * list string :=
  match ls with
  | [] => ([], [])
  | l :: ls' =>
      let i := Py.find l ": " in
      if i <? 0 then ([], ls)
      else let '(hs, rest) := parse_headers ls' in
           ((Py.slice l None (Some i), Py.slice l (Some (i + 2)) None) :: hs, rest)
  end.

Definition join_lines (ls : list string) : string :=
  foldr (λ l acc, l +:+ acc) "" ls.

Definition parse_message (data : list byte) : list (string * string) * string :=
  let '(hs, rest) := parse_headers (split_lines (string_of_list_byte data)) in
  (hs, join_lines rest).

Fixpoint header (hs : list (string * string)) (name : string) : option string :=
  match hs with
  | [] => None
  | (k, v) :: hs' => if decide (k = name) then Some v else header hs' name
  end.

Fixpoint decimal_go (s : string) (acc : Z) : option Z :=
  match s with
  | EmptyString => Some acc
  | String c s' =>
      match Ascii.is_nat c with
      | Some d => decimal_go s' (10 * acc + Z.of_nat d)
      | None => None
      end
  end.

Definition decimal (s : string) : option Z :=
  match s with
  | EmptyString => None
  | _ => decimal_go s 0
  end.

Definition seven_bit (data : list byte) : bool :=
  forallb (λ x, (Byte.to_N x <? 128)%N) data.

#[export] Instance externals : Externals := {|
  Message := list (string * string) * string;
  Part := string;
  TimeTuple := Z;
  message_from_bytes := parse_message;
  msg_getitem := λ m name, header m.1 name;
  msg_items := λ m, Ok m.1;
  get_body := λ m, Ok (Some m.2);
  get_payload_decode := λ p, Ok (Some (list_byte_of_string p));
  get_content_charset := λ _, Ok None;
  bytes_decode := λ data _,
    if seven_bit data then Ok (string_of_list_byte data)
    else Raise UnicodeDecodeError;
  soup_text := λ s, Ok s;
  parse_reply := λ s, Ok s;
  parsedate := λ v, Ok (v ≫= decimal);
  fromtimestamp_mktime := λ t, Ok t;
  strptime := λ s,
    if decide (s = since_default) then Ok 0
    else if decide (s = until_default) then Ok 2147483647
    else match decimal s with Some t => Ok t | None => Raise ValueError end;
  requests_get_url := λ _, Raise (OtherError "ConnectionError");
|}.

(** A message of the server, with the size the server reports equal to
    the length of its bytes. *)
Definition remote (text : string) : RemoteMessage :=
  let data := list_byte_of_string text in
  mkRemoteMessage (Z.of_nat (length data)) data.

Definition newline : string := String "010" EmptyString.

Definition mail (archived_at date body : string) : string :=
  "From: a@example.org" +:+ newline +:+
  "Archived-At: " +:+ archived_at +:+ newline +:+
  "Date: " +:+ date +:+ newline +:+ newline +:+ body.

Definition handle (name : string) : MailingList := mkMailingList name 0 ∅ None.

End Fixture.

(** ** Invariants of the stored state *)

(** No two documents of the collection share [(list, imap_uid)]. *)
Definition unique_index (coll : list Document) : Prop :=
  NoDup (Mongo.index_key <$> coll).

(** The state that runs of [update] keep: the unique index holds, every
    row's blob is in the bucket, no two rows share a blob, and every file
    id in use is below the next fresh id. *)
Record wf_backend (b : Backend) : Prop := mk_wf_backend {
  wf_unique : unique_index (db_messages b);
  wf_blobs : Forall (λ d, is_Some (fs_files b !! doc_gridfs_id d)) (db_messages b);
  wf_owned : NoDup (doc_gridfs_id <$> db_messages b);
  wf_fresh : map_Forall (λ id _, (id < fs_next b)%N) (fs_files b);
}.

(** The server reports as [RFC822.SIZE] the number of bytes of the message. *)
Definition imap_consistent (mailbox : gmap Z RemoteMessage) : Prop :=
  map_Forall (λ _ msg, rfc822_size msg = Z.of_nat (length (rfc822 msg))) mailbox.

(** The first loop of [update] marks an item for fetching when it has no
    cached row or a cached row of another size. *)
Definition needs_fetch (cached_messages : gmap Z Document)
    (item : Z * RemoteMessage) : bool :=
  match cached_messages !! item.1 with
  | None => true
  | Some c => bool_decide (doc_size c ≠ rfc822_size item.2)
  end.

(** An item of the folder is stale when the cache has a row of another
    size for its UID (line 196). *)
Definition stale (cached_messages : gmap Z Document)
    (item : Z * RemoteMessage) : bool :=
  match cached_messages !! item.1 with
  | None => false
  | Some c => bool_decide (doc_size c ≠ rfc822_size item.2)
  end.

(** No row of list [name] has another size than the message that the
    folder holds under its UID. *)
Definition fresh (name : string) (mailbox : gmap Z RemoteMessage)
    (coll : list Document) : Prop :=
  ∀ msg_id msg c, mailbox !! msg_id = Some msg → c ∈ coll →
    Mongo.index_key c = (name, msg_id) → doc_size c = rfc822_size msg.

(** The record of a fetched message, as a total function: [normalize]
    never raises (see [normalize_ok]). *)
Definition record_of `{Externals} (name : string) (msg_id : Z)
    (cache_file_id : N) (data : list byte) : Document :=
  match MailingList.normalize name msg_id cache_file_id data with
  | Ok d => d
  | Raise _ => mkDocument name msg_id cache_file_id (Z.of_nat (length data)) None ∅ ""
  end.

(** What one pass of the second loop does to the handle (lines 207-210)
    and to the blob store (line 205). *)
Definition index_one `{Externals} (item : Z * RemoteMessage)
    (ml : MailingList) : MailingList :=
  let ml' :=
    match msg_getitem (message_from_bytes (rfc822 item.2)) "Archived-At" with
    | Some aa =>
        set_archive_urls (<[(_parse_archive_url aa).2 := item.1]> (_archive_urls ml)) ml
    | None => ml
    end in
  set_num_messages (_num_messages ml' + 1) ml'.

Definition store_one (data : list byte) (b : Backend) : Backend :=
  set_next (N.succ (fs_next b)) (set_files (<[fs_next b := data]> (fs_files b)) b).

Definition index_all `{Externals} (items : list (Z * RemoteMessage))
    (ml : MailingList) : MailingList :=
  foldl (λ ml item, index_one item ml) ml items.

Definition store_all (items : list (Z * RemoteMessage)) (b : Backend) : Backend :=
  foldl (λ b item, store_one (rfc822 item.2) b) b items.

(** The records of the fetched items, with the file ids that [put] hands
    out from [gid] on. *)
Fixpoint new_records `{Externals} (name : string) (gid : N)
    (items : list (Z * RemoteMessage)) : list Document :=
  match items with
  | [] => []
  | (msg_id, msg) :: rest =>
      record_of name msg_id gid (rfc822 msg) :: new_records name (N.succ gid) rest
  end.

(** The staged operations for a list of records (line 223). *)
Definition ops_of (name : string) (docs : list Document)
    : list (Mongo.query * Document) :=
  (λ d, (q_list_id name (doc_imap_uid d), d)) <$> docs.

(** The sizes of the batches that a run writes when it fetches [n]
    messages: one batch each time more than 1000 operations are staged,
    and what is left at the end. *)
Definition batch_sizes (n : nat) : list nat :=
  replicate (n / 1001) 1001%nat ++
  (if decide (n mod 1001 = 0)%nat then [] else [(n mod 1001)%nat]).

#[global] Instance unique_index_dec coll : Decision (unique_index coll).
Proof. unfold unique_index. apply _. Defined.

#[global] Instance wf_backend_dec b : Decision (wf_backend b).
Proof.
  destruct (decide (unique_index (db_messages b))) as [H1|H1];
    [|right; intros []; done].
  destruct (decide (Forall (λ d, is_Some (fs_files b !! doc_gridfs_id d))
                           (db_messages b))) as [H2|H2];
    [|right; intros []; done].
  destruct (decide (NoDup (doc_gridfs_id <$> db_messages b))) as [H3|H3];
    [|right; intros []; done].
  destruct (decide (map_Forall (λ id _, (id < fs_next b)%N) (fs_files b)))
    as [H4|H4]; [|right; intros []; done].
  left. by split.
Defined.

#[global] Instance imap_consistent_dec mailbox : Decision (imap_consistent mailbox).
Proof. unfold imap_consistent. apply _. Defined.



(** ** A worked scenario

    The list [example-list] holds one message, UID 42; the server later
    holds the same UID with a longer body. *)
Module Scenario.
Import Fixture.

Definition permalink : string :=
  "https://mailarchive.ietf.org/arch/msg/example-list/abc123".

Definition folder_v1 : gmap Z RemoteMessage :=
  {[ 42 := remote (mail permalink "100" "hello") ]}.

Definition folder_v2 : gmap Z RemoteMessage :=
  {[ 42 := remote (mail permalink "100" "hello again") ]}.

Definition list_handle : MailingList := handle "example-list".

Definition first_sync : Env * result (list Z) :=
  run_update list_handle folder_v1 1 empty_backend.

Definition second_sync : Env * result (list Z) :=
  run_update (self first_sync.1) folder_v2 2 (backend first_sync.1).

(** A second run on the unchanged folder. *)
Definition first_sync_again : Env * result (list Z) :=
  run_update (self first_sync.1) folder_v1 2 (backend first_sync.1).

(** The database after both runs. *)
Definition two_runs : Backend :=
  run_updates [(list_handle, folder_v1, 1); (list_handle, folder_v2, 2)]
              empty_backend.

(** The row that the first run stores for UID 42. *)
Definition stored_row : Document :=
  match db_messages (backend first_sync.1) with
  | d :: _ => d
  | [] => mkDocument "" 0 0 0 None ∅ ""
  end.


(** An archive with one message of 1970 and one without a timestamp. *)
Definition dated_folder : gmap Z RemoteMessage :=
  {[ 1 := remote (mail permalink "100" "dated");
     2 := remote (mail permalink "soon" "undated") ]}.

Definition dated_archive : MailArchive :=
  MailArchive.__init__
    (backend (run_update list_handle dated_folder 1 empty_backend).1).

(** The folder of the first run on a server that reports 1200 as the
    size of its message. *)
Definition misreported_folder : gmap Z RemoteMessage :=
  {[ 42 := mkRemoteMessage 1200 (rfc822 (remote (mail permalink "100" "hello"))) ]}.

(** Another list, synchronized before [example-list] is. *)
Definition other_handle : MailingList := handle "other-list".

Definition other_folder : gmap Z RemoteMessage :=
  {[ 7 := remote (mail "-" "200" "elsewhere") ]}.

Definition other_sync : Env * result (list Z) :=
  run_update other_handle other_folder 1 empty_backend.

Definition both_sync : Env * result (list Z) :=
  run_update list_handle folder_v1 2 (backend other_sync.1).

End Scenario.

(** ** Invariants of the archive *)

(** Every list that has rows has a persisted archived-at index; the
    constructor of a handle and [update] keep it so. *)
Definition indexed (b : Backend) : Prop :=
  Forall (λ d, is_Some (db_aa_cache b !! doc_list d)) (db_messages b).



#[global] Instance indexed_dec b : Decision (indexed b).
Proof. unfold indexed. apply _. Defined.


(** * Properties *)

(** ** Queries *)

Lemma matches_q_list_id name msg_id d :
  Mongo.matches (q_list_id name msg_id) d = false.
Proof.
  unfold Mongo.matches, q_list_id. simpl.
  rewrite andb_false_iff. right. reflexivity.
Qed.

Lemma matches_q_list name d :
  Mongo.matches (q_list name) d = bool_decide (doc_list d = name).
Proof.
  unfold Mongo.matches, q_list. simpl. rewrite andb_true_r.
  apply bool_decide_ext. split; congruence.
Qed.

Lemma matches_q_list_imap_uid name msg_id d :
  Mongo.matches (q_list_imap_uid name msg_id) d
  = bool_decide (Mongo.index_key d = (name, msg_id)).
Proof.
  unfold Mongo.matches, q_list_imap_uid, Mongo.index_key. simpl.
  rewrite andb_true_r.
  destruct (decide (doc_list d = name)) as [->|Hn],
           (decide (doc_imap_uid d = msg_id)) as [->|Hu].
  - rewrite !bool_decide_eq_true_2; done.
  - rewrite (bool_decide_eq_false_2 (BInt _ = _)) by congruence.
    rewrite andb_false_r. symmetry. apply bool_decide_eq_false_2. congruence.
  - rewrite (bool_decide_eq_false_2 (BStr _ = _)) by congruence.
    symmetry. apply bool_decide_eq_false_2. congruence.
  - rewrite (bool_decide_eq_false_2 (BStr _ = _)) by congruence.
    symmetry. apply bool_decide_eq_false_2. congruence.
Qed.

Lemma matches_q_timestamp lo hi d :
  Mongo.matches (q_timestamp lo hi) d = true ↔
  ∃ t, doc_timestamp d = Some t ∧ lo < t < hi.
Proof.
  unfold Mongo.matches, q_timestamp. simpl. rewrite andb_true_r.
  destruct (doc_timestamp d) as [t|]; simpl.
  - rewrite andb_true_iff, !Z.ltb_lt. split.
    + intros [??]. exists t. auto.
    + intros (t' & [= <-] & ?). lia.
  - split; [discriminate|]. intros (t & ? & _). discriminate.
Qed.

Lemma matches_q_list_timestamp name lo hi d :
  Mongo.matches (q_list_timestamp name lo hi) d = true ↔
  doc_list d = name ∧ ∃ t, doc_timestamp d = Some t ∧ lo < t < hi.
Proof.
  unfold Mongo.matches, q_list_timestamp. simpl. rewrite andb_true_r.
  rewrite andb_true_iff, bool_decide_eq_true.
  destruct (doc_timestamp d) as [t|]; simpl.
  - rewrite andb_true_iff, !Z.ltb_lt. split.
    + intros [[=] [??]]. split; [done|]. exists t. auto.
    + intros [-> (t' & [= <-] & ?)]. split; [done|lia].
  - split; [intros [_ ?]; discriminate|]. intros (_ & t & ? & _). discriminate.
Qed.

#[global] Arguments Mongo.matches : simpl never.

Lemma elem_of_find q coll d :
  d ∈ Mongo.find q coll ↔ d ∈ coll ∧ Mongo.matches q d = true.
Proof.
  unfold Mongo.find. rewrite !list_elem_of_In. apply filter_In.
Qed.

(** ** The unique index *)


Lemma NoDup_fmap_inj_on {A B} (f : A → B) (l : list A) x y :
  NoDup (f <$> l) → x ∈ l → y ∈ l → f x = f y → x = y.
Proof.
  induction l as [|a l IH]; intros Hnd Hx Hy Hf.
  - inversion Hx.
  - rewrite fmap_cons in Hnd. apply NoDup_cons in Hnd as [Ha Hnd].
    apply elem_of_cons in Hx as [->|Hx]; apply elem_of_cons in Hy as [->|Hy].
    + done.
    + exfalso. apply Ha. rewrite Hf. by apply list_elem_of_fmap_2.
    + exfalso. apply Ha. rewrite <- Hf. by apply list_elem_of_fmap_2.
    + by apply IH.
Qed.

Lemma unique_index_inj coll d1 d2 :
  unique_index coll → d1 ∈ coll → d2 ∈ coll →
  Mongo.index_key d1 = Mongo.index_key d2 → d1 = d2.
Proof. apply NoDup_fmap_inj_on. Qed.

Lemma split_first_spec q coll pre m post :
  Mongo.split_first q coll = Some (pre, m, post) → coll = pre ++ m :: post.
Proof.
  revert pre. induction coll as [|d coll IH]; intros pre; simpl; [discriminate|].
  destruct (Mongo.matches q d).
  - intros [= <- <- <-]. done.
  - destruct (Mongo.split_first q coll) as [[[pre' m'] post']|]; [|discriminate].
    intros [= <- <- <-]. simpl. f_equal. by apply IH.
Qed.

Lemma split_first_none q coll :
  (∀ d, d ∈ coll → Mongo.matches q d = false) → Mongo.split_first q coll = None.
Proof.
  induction coll as [|d coll IH]; intros Hno; simpl; [done|].
  rewrite (Hno d) by (apply elem_of_cons; auto).
  rewrite IH; [done|]. intros d' ?. apply Hno. apply elem_of_cons; auto.
Qed.

Lemma index_clash_false d coll :
  Mongo.index_clash d coll = false ↔ Mongo.index_key d ∉ Mongo.index_key <$> coll.
Proof. unfold Mongo.index_clash. apply bool_decide_eq_false. Qed.

Lemma replace_one_upsert_unique q d coll coll' :
  unique_index coll → Mongo.replace_one_upsert q d coll = Ok coll' →
  unique_index coll'.
Proof.
  unfold unique_index, Mongo.replace_one_upsert. intros Hnd.
  destruct (Mongo.split_first q coll) as [[[pre m] post]|] eqn:Hs.
  - apply split_first_spec in Hs. subst coll.
    destruct (Mongo.index_clash d (pre ++ post)) eqn:Hc; [discriminate|].
    intros [= <-]. apply index_clash_false in Hc.
    rewrite fmap_app, fmap_cons in *.
    apply NoDup_app in Hnd as (Hpre & Hdis & Hpost).
    apply NoDup_cons in Hpost as [Hm Hpost].
    apply not_elem_of_app in Hc as [Hc1 Hc2].
    apply NoDup_app. split_and!; [done| |].
    + intros k Hk Hk'. apply elem_of_cons in Hk' as [->|Hk']; [done|].
      apply (Hdis k Hk). apply elem_of_cons. auto.
    + apply NoDup_cons. done.
  - destruct (Mongo.index_clash d coll) eqn:Hc; [discriminate|].
    intros [= <-]. apply index_clash_false in Hc.
    rewrite fmap_app. apply NoDup_app. split_and!; [done| |].
    + intros k Hk Hk'. simpl in Hk'. apply list_elem_of_singleton in Hk'. by subst.
    + simpl. apply NoDup_singleton.
Qed.

Lemma bulk_write_unique ops coll :
  unique_index coll → unique_index (Mongo.bulk_write ops coll).1.
Proof.
  revert coll. induction ops as [|[q d] ops IH]; intros coll Hnd; simpl; [done|].
  destruct (Mongo.replace_one_upsert q d coll) as [coll'|e] eqn:Hr; [|done].
  apply IH. eapply replace_one_upsert_unique; eauto.
Qed.

Lemma delete_one_sublist q coll : sublist (Mongo.delete_one q coll) coll.
Proof.
  induction coll as [|d coll IH]; simpl; [constructor|].
  destruct (Mongo.matches q d).
  - by apply sublist_cons.
  - by apply sublist_skip.
Qed.

Lemma unique_index_sublist coll coll' :
  sublist coll' coll → unique_index coll → unique_index coll'.
Proof.
  unfold unique_index. intros Hs Hnd.
  apply (sublist_NoDup _ (Mongo.index_key <$> coll)); [exact Hnd|].
  by apply fmap_sublist.
Qed.

(** ** The first loop of [update] *)

#[global] Arguments MailingList.check_size : simpl never.
#[global] Arguments MailingList.fetch_one : simpl never.
#[global] Arguments index_one : simpl never.
#[global] Arguments _parse_archive_url : simpl never.

Section FirstLoop.
Context `{Externals}.

Lemma check_size_uncached cached acc msg_id msg s :
  cached !! msg_id = None →
  MailingList.check_size cached acc (msg_id, msg) s = (s, Ok (acc ++ [msg_id])).
Proof. intros Hc. unfold MailingList.check_size. by rewrite Hc. Qed.

Lemma check_size_same cached acc msg_id msg c s :
  cached !! msg_id = Some c → doc_size c = rfc822_size msg →
  MailingList.check_size cached acc (msg_id, msg) s = (s, Ok acc).
Proof.
  intros Hc Hsz. unfold MailingList.check_size. rewrite Hc.
  by rewrite decide_True.
Qed.

(** A row of another size whose blob is there: [fs.get] returns, and
    [cache_file.delete()] raises. *)
Lemma check_size_stale cached acc msg_id msg c s :
  cached !! msg_id = Some c → doc_size c ≠ rfc822_size msg →
  is_Some (fs_files (backend s) !! doc_gridfs_id c) →
  MailingList.check_size cached acc (msg_id, msg) s = (s, Raise AttributeError).
Proof.
  intros Hc Hsz [data Hdata]. unfold MailingList.check_size. rewrite Hc.
  rewrite decide_False by done.
  unfold mbind, M_bind, GridFS.get. rewrite Hdata. reflexivity.
Qed.

(** A row of another size whose blob is missing: [fs.get] raises. *)
Lemma check_size_nofile cached acc msg_id msg c s :
  cached !! msg_id = Some c → doc_size c ≠ rfc822_size msg →
  fs_files (backend s) !! doc_gridfs_id c = None →
  MailingList.check_size cached acc (msg_id, msg) s = (s, Raise NoFile).
Proof.
  intros Hc Hsz Hdata. unfold MailingList.check_size. rewrite Hc.
  rewrite decide_False by done.
  unfold mbind, M_bind, GridFS.get. by rewrite Hdata.
Qed.

(** One pass of the first loop, by cases: it never changes the state. *)
Lemma check_size_cases cached acc item s :
  MailingList.check_size cached acc item s
  = (s, if stale cached item
        then match cached !! item.1 with
             | Some c =>
                 if fs_files (backend s) !! doc_gridfs_id c is Some _
                 then Raise AttributeError else Raise NoFile
             | None => Raise NoFile
             end
        else Ok (if needs_fetch cached item then acc ++ [item.1] else acc)).
Proof.
  destruct item as [msg_id msg]. unfold stale, needs_fetch. cbn [fst snd].
  destruct (cached !! msg_id) as [c|] eqn:Hc.
  - destruct (decide (doc_size c = rfc822_size msg)) as [Hsz|Hsz].
    + rewrite (check_size_same _ _ _ _ c) by done.
      by rewrite bool_decide_eq_false_2 by (intros ?; done).
    + rewrite bool_decide_eq_true_2 by done.
      destruct (fs_files (backend s) !! doc_gridfs_id c) as [data|] eqn:Hdata.
      * by rewrite (check_size_stale _ _ _ _ c) by eauto.
      * by rewrite (check_size_nofile _ _ _ _ c).
  - by rewrite check_size_uncached.
Qed.

Lemma foldM_cons {A B} (f : B → A → M B) x l b s :
  foldM f (x :: l) b s
  = match f b x s with
    | (s', Ok b') => foldM f l b' s'
    | (s', Raise e) => (s', Raise e)
    end.
Proof. reflexivity. Qed.

(** Without a stale item the loop returns the UIDs to fetch. *)
Lemma check_size_loop_fresh cached items acc s :
  (∀ item, item ∈ items → stale cached item = false) →
  foldM (MailingList.check_size cached) items acc s
  = (s, Ok (acc ++ (List.filter (needs_fetch cached) items).*1)).
Proof.
  revert acc. induction items as [|item items IH]; intros acc Hfresh.
  - simpl. by rewrite app_nil_r.
  - rewrite foldM_cons, check_size_cases.
    rewrite (Hfresh item) by (apply elem_of_cons; auto).
    rewrite IH by (intros item' ?; apply Hfresh, elem_of_cons; auto).
    cbn [List.filter]. destruct (needs_fetch cached item); [|done].
    rewrite fmap_cons. by rewrite <- app_assoc.
Qed.

(** With a stale item the loop raises: at the first one, [NoFile] when
    the blob of its row is missing and [AttributeError] otherwise. *)
Lemma check_size_loop_stale cached items acc s item :
  item ∈ items → stale cached item = true →
  ∃ e, foldM (MailingList.check_size cached) items acc s = (s, Raise e) ∧
       (e = AttributeError ∨ e = NoFile) ∧
       ((∀ msg_id c, cached !! msg_id = Some c →
           is_Some (fs_files (backend s) !! doc_gridfs_id c)) →
        e = AttributeError).
Proof.
  revert acc. induction items as [|x items IH]; intros acc Hin Hstale;
    [inversion Hin|].
  rewrite foldM_cons, check_size_cases.
  destruct (stale cached x) eqn:Hx.
  - unfold stale in Hx. destruct (cached !! x.1) as [c|] eqn:Hc; [|discriminate].
    destruct (fs_files (backend s) !! doc_gridfs_id c) as [data|] eqn:Hdata.
    + exists AttributeError. auto.
    + exists NoFile. split_and!; [done|auto|]. intros Hblobs.
      destruct (Hblobs _ _ Hc) as [data Hdata']. congruence.
  - apply IH; [|done]. apply elem_of_cons in Hin as [->|Hin]; [congruence|done].
Qed.

End FirstLoop.

(** ** Normalization *)

Section Normalize.
Context `{Externals}.

Lemma try_except_ok {A} (body : result A) (handler : A) :
  ∃ a, try_except body handler = Ok a.
Proof. destruct body; simpl; eauto. Qed.

Lemma normalize_ok name msg_id gid data :
  MailingList.normalize name msg_id gid data = Ok (record_of name msg_id gid data).
Proof.
  unfold record_of.
  assert (∃ d, MailingList.normalize name msg_id gid data = Ok d) as [d Hd];
    [|by rewrite Hd].
  unfold MailingList.normalize, parse_timestamp, collect_headers, _clean_email_text.
  destruct (try_except_ok (parse_timestamp_try (message_from_bytes data)) None) as [t ->].
  destruct (try_except_ok
    (items ← msg_items (message_from_bytes data); Ok (dict_of_items items)) ∅) as [h ->].
  destruct (try_except_ok (clean_email_text_try (message_from_bytes data)) "") as [b ->].
  simpl. eauto.
Qed.

Lemma record_of_fields name msg_id gid data :
  doc_list (record_of name msg_id gid data) = name ∧
  doc_imap_uid (record_of name msg_id gid data) = msg_id ∧
  doc_gridfs_id (record_of name msg_id gid data) = gid ∧
  doc_size (record_of name msg_id gid data) = Z.of_nat (length data).
Proof.
  pose proof (normalize_ok name msg_id gid data) as Hn.
  unfold MailingList.normalize in Hn.
  destruct (parse_timestamp _) as [t|]; [|discriminate].
  destruct (collect_headers _) as [h|]; [|discriminate].
  destruct (_clean_email_text _) as [b|]; [|discriminate].
  simpl in Hn. injection Hn as <-. done.
Qed.

Lemma record_of_key name msg_id gid data :
  Mongo.index_key (record_of name msg_id gid data) = (name, msg_id).
Proof.
  unfold Mongo.index_key.
  destruct (record_of_fields name msg_id gid data) as (-> & -> & _). done.
Qed.

End Normalize.

(** ** Batches of upserts *)

Lemma index_key_ops name docs : (ops_of name docs).*2 = docs.
Proof.
  unfold ops_of. induction docs as [|d docs IH]; simpl; [done|]. by f_equal.
Qed.

Lemma length_ops_of name docs : length (ops_of name docs) = length docs.
Proof. unfold ops_of. by rewrite length_fmap. Qed.

Lemma ops_of_app name docs docs' :
  ops_of name (docs ++ docs') = ops_of name docs ++ ops_of name docs'.
Proof. unfold ops_of. by rewrite fmap_app. Qed.

(** The filter of a staged operation names the field [id], which no stored
    document has: every operation inserts, and a batch whose keys are new
    and distinct is appended as it is. *)
Lemma bulk_write_inserts name docs coll :
  unique_index (coll ++ docs) →
  Mongo.bulk_write (ops_of name docs) coll = (coll ++ docs, Ok tt).
Proof.
  revert coll. induction docs as [|d docs IH]; intros coll Hu; simpl.
  - by rewrite app_nil_r.
  - unfold Mongo.replace_one_upsert.
    rewrite split_first_none by (intros; apply matches_q_list_id).
    assert (Mongo.index_clash d coll = false) as ->.
    { apply index_clash_false. unfold unique_index in Hu.
      rewrite fmap_app, fmap_cons in Hu.
      apply NoDup_app in Hu as (_ & Hdis & _). intros Hin.
      apply (Hdis _ Hin). apply elem_of_cons. auto. }
    rewrite IH; rewrite <- app_assoc; done.
Qed.

(** ** The second loop of [update] *)

Section SecondLoop.
Context `{Externals}.

Lemma index_one_name item ml : _list_name (index_one item ml) = _list_name ml.
Proof. unfold index_one. by destruct (msg_getitem _ _). Qed.

Lemma index_one_num item ml :
  _num_messages (index_one item ml) = _num_messages ml + 1.
Proof. unfold index_one. by destruct (msg_getitem _ _). Qed.

Lemma index_all_name items ml : _list_name (index_all items ml) = _list_name ml.
Proof.
  revert ml. induction items as [|item items IH]; intros ml; [done|].
  unfold index_all in *. simpl. by rewrite IH, index_one_name.
Qed.

Lemma index_all_num items ml :
  _num_messages (index_all items ml) = _num_messages ml + Z.of_nat (length items).
Proof.
  revert ml. induction items as [|item items IH]; intros ml.
  - simpl. lia.
  - unfold index_all in *. cbn [foldl length]. rewrite IH, index_one_num. lia.
Qed.

Lemma bulk_write_eq ops s :
  MailingList.bulk_write ops s
  = (on_backend (λ b, log_bulk_write (length ops)
       (set_messages (Mongo.bulk_write ops (db_messages (backend s))).1 b)) s,
     (Mongo.bulk_write ops (db_messages (backend s))).2).
Proof. unfold MailingList.bulk_write. by destruct (Mongo.bulk_write _ _). Qed.

(** One pass of the second loop, as an equation. *)
Lemma fetch_one_eq staged new msg_id msg s :
  MailingList.fetch_one (staged, new) (msg_id, msg) s
  = let name := _list_name (self s) in
    let s1 := mkEnv (index_one (msg_id, msg) (self s))
                    (store_one (rfc822 msg) (backend s)) in
    let staged' :=
      staged ++ [(q_list_id name msg_id,
                  record_of name msg_id (fs_next (backend s)) (rfc822 msg))] in
    if decide (1000 < Z.of_nat (length staged')) then
      match MailingList.bulk_write staged' s1 with
      | (s2, Ok _) => (s2, Ok ([], new ++ [msg_id]))
      | (s2, Raise e) => (s2, Raise e)
      end
    else (s1, Ok (staged', new ++ [msg_id])).
Proof.
  unfold MailingList.fetch_one, index_one, store_one. cbn [fst snd].
  unfold mbind, M_bind, GridFS.put, modify, gets, lift, mret, M_ret.
  destruct (msg_getitem (message_from_bytes (rfc822 msg)) "Archived-At") as [aa|];
    [destruct (_parse_archive_url aa) as [ln mh]|];
    cbn [self backend on_self on_backend set_archive_urls set_num_messages
         _list_name _num_messages _archive_urls _last_updated fst snd];
    rewrite normalize_ok;
    destruct (decide _); try reflexivity.
  all: destruct s as [ml b]; cbn [on_self on_backend self backend];
    destruct (MailingList.bulk_write _ _) as [s2 [[]|e]]; reflexivity.
Qed.

Lemma store_all_cons item items b :
  store_all (item :: items) b = store_all items (store_one (rfc822 item.2) b).
Proof. reflexivity. Qed.

Lemma index_all_cons item items ml :
  index_all (item :: items) ml = index_all items (index_one item ml).
Proof. reflexivity. Qed.

Lemma store_all_irrel items b1 b2 :
  fs_files b1 = fs_files b2 → fs_next b1 = fs_next b2 →
  fs_files (store_all items b1) = fs_files (store_all items b2) ∧
  fs_next (store_all items b1) = fs_next (store_all items b2).
Proof.
  revert b1 b2. induction items as [|item items IH]; intros b1 b2 Hf Hn; [done|].
  rewrite !store_all_cons. apply IH; simpl; congruence.
Qed.

Lemma store_all_fields items b :
  db_messages (store_all items b) = db_messages b ∧
  db_aa_cache (store_all items b) = db_aa_cache b ∧
  db_bulk_writes (store_all items b) = db_bulk_writes b.
Proof.
  revert b. induction items as [|item items IH]; intros b; [done|].
  rewrite store_all_cons. destruct (IH (store_one (rfc822 item.2) b)) as (-> & -> & ->).
  done.
Qed.

Lemma div_1001_step (n : nat) : ((1001 + n) / 1001 = S (n / 1001))%nat.
Proof.
  replace (1001 + n)%nat with (1 * 1001 + n)%nat by lia.
  rewrite Nat.div_add_l by lia. lia.
Qed.

Lemma mod_1001_step (n : nat) : ((1001 + n) mod 1001 = n mod 1001)%nat.
Proof.
  replace (1001 + n)%nat with (n + 1 * 1001)%nat by lia. apply Nat.Div0.mod_add.
Qed.

(** The second loop, when the keys of the fetched records are new and
    distinct: it does not raise; what is written and what is still staged
    are together the old rows, the rows staged before and the new records;
    a batch of 1001 is written each time the staged list passes 1000. *)
Lemma fetch_loop items : ∀ sdocs new s,
  (length sdocs ≤ 1000)%nat →
  unique_index (db_messages (backend s) ++ sdocs ++
                new_records (_list_name (self s)) (fs_next (backend s)) items) →
  ∃ b' sdocs',
    foldM MailingList.fetch_one items (ops_of (_list_name (self s)) sdocs, new) s
    = (mkEnv (index_all items (self s)) b',
       Ok (ops_of (_list_name (self s)) sdocs', new ++ items.*1)) ∧
    db_messages b' ++ sdocs'
    = db_messages (backend s) ++ sdocs ++
      new_records (_list_name (self s)) (fs_next (backend s)) items ∧
    fs_files b' = fs_files (store_all items (backend s)) ∧
    fs_next b' = fs_next (store_all items (backend s)) ∧
    db_aa_cache b' = db_aa_cache (backend s) ∧
    db_bulk_writes b'
    = db_bulk_writes (backend s) ++
      replicate ((length sdocs + length items) / 1001) 1001%nat ∧
    length sdocs' = ((length sdocs + length items) mod 1001)%nat.
Proof.
  induction items as [|[msg_id msg] items IH]; intros sdocs new s Hlen Hu.
  - exists (backend s), sdocs.
    cbn [foldM length new_records index_all store_all foldl fmap list_fmap].
    rewrite Nat.add_0_r, Nat.div_small, Nat.mod_small by lia.
    cbn [replicate]. rewrite !app_nil_r. destruct s; done.
  - rewrite foldM_cons, fetch_one_eq. cbn zeta.
    set (name := _list_name (self s)) in *.
    set (doc := record_of name msg_id (fs_next (backend s)) (rfc822 msg)) in *.
    assert (ops_of name sdocs ++ [(q_list_id name msg_id, doc)]
            = ops_of name (sdocs ++ [doc])) as ->.
    { rewrite ops_of_app. unfold ops_of at 3. simpl.
      destruct (record_of_fields name msg_id (fs_next (backend s)) (rfc822 msg))
        as (_ & Huid & _).
      fold doc in Huid. by rewrite Huid. }
    rewrite length_ops_of, length_app. cbn [length new_records] in *.
    fold doc in Hu.
    destruct (decide (1000 < Z.of_nat (length sdocs + 1))) as [Hfull|Hroom].
    + assert (length sdocs = 1000%nat) as Hk by lia.
      rewrite bulk_write_eq. cbn [backend self store_one set_next set_files db_messages].
      rewrite bulk_write_inserts.
      2:{ eapply unique_index_sublist; [|exact Hu].
          apply sublist_app; [done|].
          apply sublist_app; [done|]. apply sublist_skip, sublist_nil_l. }
      cbn [fst snd].
      edestruct (IH [] (new ++ [msg_id])
                   (on_backend (λ b, log_bulk_write (length (ops_of name (sdocs ++ [doc])))
                        (set_messages (db_messages (backend s) ++ sdocs ++ [doc]) b))
                      (mkEnv (index_one (msg_id, msg) (self s))
                             (store_one (rfc822 msg) (backend s)))))
        as (b' & sdocs' & Hrun & Hrows & Hfiles & Hnext & Haa & Hlog & Hlen').
      { simpl. lia. }
      { cbn [backend self on_backend log_bulk_write set_messages db_messages
             fs_next store_one set_next app].
        rewrite index_one_name. fold name.
        rewrite <- !app_assoc. exact Hu. }
      exists b', sdocs'.
      cbn [backend self on_backend log_bulk_write set_messages db_messages
           fs_next fs_files db_aa_cache db_bulk_writes store_one set_next
           set_files app] in *.
      rewrite index_one_name in *. fold name in Hrun, Hrows.
      split_and!.
      * etrans; [exact Hrun|]. rewrite index_all_cons. cbn [fmap list_fmap fst].
        by rewrite <- app_assoc.
      * rewrite Hrows. by rewrite <- !app_assoc.
      * rewrite Hfiles, store_all_cons. by apply store_all_irrel.
      * rewrite Hnext, store_all_cons. by apply store_all_irrel.
      * done.
      * rewrite Hlog, length_ops_of, length_app, Hk. cbn [length].
        replace (1000 + S (length items))%nat with (1001 + length items)%nat by lia.
        rewrite div_1001_step. cbn [replicate plus].
        rewrite <- app_assoc. done.
      * rewrite Hlen', Hk. cbn [length].
        replace (1000 + S (length items))%nat with (1001 + length items)%nat by lia.
        by rewrite mod_1001_step.
    + edestruct (IH (sdocs ++ [doc]) (new ++ [msg_id])
                   (mkEnv (index_one (msg_id, msg) (self s))
                          (store_one (rfc822 msg) (backend s))))
        as (b' & sdocs' & Hrun & Hrows & Hfiles & Hnext & Haa & Hlog & Hlen').
      { rewrite length_app. simpl. lia. }
      { cbn [backend self db_messages fs_next store_one set_next set_files].
        rewrite index_one_name. fold name. rewrite <- !app_assoc. exact Hu. }
      exists b', sdocs'.
      cbn [backend self db_messages fs_next fs_files db_aa_cache db_bulk_writes
           store_one set_next set_files] in *.
      rewrite index_one_name in *. fold name in Hrun, Hrows.
      rewrite length_app in Hlog, Hlen'. cbn [length] in *.
      replace (length sdocs + 1 + length items)%nat
        with (length sdocs + S (length items))%nat in Hlog, Hlen' by lia.
      split_and!; try done.
      * etrans; [exact Hrun|]. rewrite index_all_cons. cbn [fmap list_fmap fst].
        by rewrite <- app_assoc.
      * rewrite Hrows. by rewrite <- !app_assoc.
Qed.

End SecondLoop.

(** ** A run of [update], in closed form *)

Section Update.
Context `{Externals}.

Lemma bind_eq {A B} (m : M A) (f : A → M B) s :
  (m ≫= f) s
  = match m s with
    | (s', Ok a) => f a s'
    | (s', Raise e) => (s', Raise e)
    end.
Proof. reflexivity. Qed.

(** The dict of cached rows by UID. *)
Lemma cached_by_uid_foldl (docs : list Document) (m : gmap Z Document) msg_id c :
  NoDup (doc_imap_uid <$> docs) →
  (foldl (λ m d, insert (doc_imap_uid d) d m) m docs) !! msg_id = Some c ↔
  (c ∈ docs ∧ doc_imap_uid c = msg_id) ∨
  ((msg_id ∉ (doc_imap_uid <$> docs)) ∧ m !! msg_id = Some c).
Proof.
  revert m. induction docs as [|d docs IH]; intros m Hnd; simpl.
  - split; [intros ?; right; split; [inversion 1|done]|].
    intros [[Hin _]|[_ ?]]; [inversion Hin|done].
  - rewrite fmap_cons in Hnd. apply NoDup_cons in Hnd as [Hd Hnd].
    rewrite IH by done. rewrite lookup_insert. split.
    + intros [[Hin Hu]|[Hni Hl]].
      * left. split; [apply elem_of_cons; auto|done].
      * case_decide as Hdec.
        -- injection Hl as <-. left. split; [apply elem_of_cons; auto|done].
        -- right. split; [|done]. intros Hin. apply elem_of_cons in Hin as [?|?]; auto.
    + intros [[Hin Hu]|[Hni Hl]].
      * apply elem_of_cons in Hin as [->|Hin]; [|left; auto].
        right. split; [by rewrite Hu in Hd|]. by rewrite decide_True.
      * right. rewrite not_elem_of_cons in Hni. destruct Hni as [Hne Hni].
        split; [done|]. by rewrite decide_False.
Qed.

Lemma cached_by_uid_lookup name coll msg_id c :
  unique_index coll →
  MailingList.cached_by_uid (Mongo.find (q_list name) coll) !! msg_id = Some c ↔
  c ∈ coll ∧ Mongo.index_key c = (name, msg_id).
Proof.
  intros Hu. unfold MailingList.cached_by_uid.
  rewrite cached_by_uid_foldl.
  - rewrite lookup_empty, elem_of_find, matches_q_list, bool_decide_eq_true.
    unfold Mongo.index_key. split.
    + intros [[[? ?] ?]|[_ ?]]; [|done]. split; [done|]. congruence.
    + intros [? [= ? ?]]. left. done.
  - unfold unique_index in Hu.
    assert (∀ l : list Document,
      NoDup (Mongo.index_key <$> l) →
      NoDup (doc_imap_uid <$> Mongo.find (q_list name) l)) as Haux; [|by apply Haux].
    clear. induction l as [|d l IH]; intros Hnd; simpl; [constructor|].
    rewrite fmap_cons in Hnd. apply NoDup_cons in Hnd as [Hd Hnd].
    rewrite matches_q_list. case_bool_decide as Hn; [|by apply IH].
    rewrite fmap_cons. apply NoDup_cons. split; [|by apply IH].
    intros Hin. apply Hd. apply list_elem_of_fmap in Hin as (d' & Hu' & Hin').
    apply elem_of_find in Hin' as [Hin' Hm]. rewrite matches_q_list in Hm.
    apply bool_decide_eq_true in Hm.
    apply list_elem_of_fmap. exists d'. split; [|done].
    unfold Mongo.index_key. congruence.
Qed.

(** The two fetches of [update]. *)
Lemma filter_all {A} (f : A → bool) (l : list A) :
  (∀ x, x ∈ l → f x = true) → List.filter f l = l.
Proof.
  induction l as [|x l IH]; intros Hf; simpl; [done|].
  rewrite Hf by (apply elem_of_cons; auto). f_equal. apply IH.
  intros y ?. apply Hf. apply elem_of_cons; auto.
Qed.

Lemma elem_of_list_filter {A} (f : A → bool) (l : list A) x :
  x ∈ List.filter f l ↔ x ∈ l ∧ f x = true.
Proof. rewrite !list_elem_of_In. apply filter_In. Qed.

(** The items of a folder: one per message, each UID once. *)
Lemma imap_items_perm mailbox : imap_items mailbox ≡ₚ map_to_list mailbox.
Proof. apply merge_sort_Permutation. Qed.

Lemma elem_of_imap_items mailbox msg_id msg :
  (msg_id, msg) ∈ imap_items mailbox ↔ mailbox !! msg_id = Some msg.
Proof. rewrite imap_items_perm. apply elem_of_map_to_list. Qed.

Lemma NoDup_fst_imap_items mailbox : NoDup (imap_items mailbox).*1.
Proof. rewrite imap_items_perm. apply NoDup_fst_map_to_list. Qed.

Lemma imap_fetch_all mailbox :
  imap_fetch mailbox (imap_search mailbox) = imap_items mailbox.
Proof.
  unfold imap_fetch, imap_search. apply filter_all.
  intros p Hp. apply bool_decide_eq_true. by apply list_elem_of_fmap_2.
Qed.

Lemma imap_fetch_marked mailbox (f : Z * RemoteMessage → bool) :
  imap_fetch mailbox (List.filter f (imap_items mailbox)).*1
  = List.filter f (imap_items mailbox).
Proof.
  unfold imap_fetch. apply filter_ext_in. intros p Hp.
  apply list_elem_of_In in Hp.
  destruct (f p) eqn:Hf.
  - apply bool_decide_eq_true. apply list_elem_of_fmap_2.
    by apply elem_of_list_filter.
  - apply bool_decide_eq_false. intros Hin.
    apply list_elem_of_fmap in Hin as (q & Hq1 & Hq).
    apply elem_of_list_filter in Hq as [Hq Hfq].
    assert (p = q) as ->; [|congruence].
    eapply (NoDup_fmap_inj_on fst); eauto. apply NoDup_fst_imap_items.
Qed.

Lemma filter_sublist {A} (f : A → bool) (l : list A) : sublist (List.filter f l) l.
Proof.
  induction l as [|x l IH]; simpl; [done|].
  destruct (f x); [by apply sublist_skip|by apply sublist_cons].
Qed.

Lemma new_records_keys name gid items :
  Mongo.index_key <$> new_records name gid items = (λ p, (name, p.1)) <$> items.
Proof.
  revert gid. induction items as [|[msg_id msg] items IH]; intros gid; [done|].
  cbn [new_records fmap list_fmap]. rewrite record_of_key. f_equal. apply IH.
Qed.

Lemma length_new_records name gid items :
  length (new_records name gid items) = length items.
Proof.
  revert gid. induction items as [|[msg_id msg] items IH]; intros gid; [done|].
  simpl. by rewrite IH.
Qed.

(** Whether an item is stale, in terms of the stored rows. *)
Lemma stale_false_fresh name mailbox coll :
  unique_index coll →
  (∀ item, item ∈ imap_items mailbox →
     stale (MailingList.cached_by_uid (Mongo.find (q_list name) coll)) item = false)
  ↔ fresh name mailbox coll.
Proof.
  intros Hu. split.
  - intros Hns msg_id msg c Hmsg Hc Hk.
    apply elem_of_imap_items in Hmsg. specialize (Hns _ Hmsg).
    unfold stale in Hns. cbn [fst snd] in Hns.
    assert (MailingList.cached_by_uid (Mongo.find (q_list name) coll) !! msg_id
            = Some c) as Hcached by (by apply cached_by_uid_lookup).
    rewrite Hcached in Hns. apply bool_decide_eq_false in Hns.
    by apply dec_stable in Hns.
  - intros Hfresh [msg_id msg] Hin. apply elem_of_imap_items in Hin.
    unfold stale. cbn [fst snd].
    destruct (MailingList.cached_by_uid _ !! msg_id) as [c|] eqn:Hc; [|done].
    apply cached_by_uid_lookup in Hc as [Hc Hk]; [|done].
    apply bool_decide_eq_false_2. intros Hne. apply Hne.
    by apply (Hfresh msg_id msg c).
Qed.

(** The keys of the records to write are new when no item is stale. *)
Lemma fetched_keys_fresh name mailbox b gid :
  unique_index (db_messages b) →
  let cached := MailingList.cached_by_uid (Mongo.find (q_list name) (db_messages b)) in
  let items := imap_items mailbox in
  (∀ item, item ∈ items → stale cached item = false) →
  unique_index (db_messages b ++
                new_records name gid (List.filter (needs_fetch cached) items)).
Proof.
  intros Hu cached items Hns. unfold unique_index.
  rewrite fmap_app, new_records_keys. apply NoDup_app. split_and!.
  - done.
  - intros k Hk Hk'.
    apply list_elem_of_fmap in Hk as (d & -> & Hd).
    apply list_elem_of_fmap in Hk' as ([msg_id msg] & Hkey & Hp). simpl in Hkey.
    apply elem_of_list_filter in Hp as [Hp Hnf].
    pose proof (Hns _ Hp) as Hst.
    unfold needs_fetch in Hnf. unfold stale in Hst. cbn [fst snd] in Hnf, Hst.
    destruct (cached !! msg_id) as [c|] eqn:Hc; [congruence|].
    assert (cached !! msg_id = Some d) as Hc'; [|congruence].
    by apply cached_by_uid_lookup.
  - assert (((λ p : Z * RemoteMessage, (name, p.1)) <$>
               List.filter (needs_fetch cached) items)
            = (λ i, (name, i)) <$> (List.filter (needs_fetch cached) items).*1) as ->.
    { by rewrite <- list_fmap_compose. }
    apply NoDup_fmap_2; [intros ?? [=]; done|].
    apply (sublist_NoDup _ (imap_items mailbox).*1);
      [apply NoDup_fst_imap_items|].
    apply fmap_sublist, filter_sublist.
Qed.

Lemma batch_sizes_0 : batch_sizes 0 = [].
Proof. reflexivity. Qed.

(** A run of [update] that meets no stale row returns the UIDs that had
    no row, and appends one new record per such UID to the rows. *)
Lemma update_fresh ml mailbox now b :
  unique_index (db_messages b) →
  let name := _list_name ml in
  let cached := MailingList.cached_by_uid (Mongo.find (q_list name) (db_messages b)) in
  let items := imap_items mailbox in
  let marked := List.filter (needs_fetch cached) items in
  (∀ item, item ∈ items → stale cached item = false) →
  ∃ b',
    run_update ml mailbox now b
    = (mkEnv (set_last_updated now (index_all marked ml)) b', Ok marked.*1) ∧
    db_messages b' = db_messages b ++ new_records name (fs_next b) marked ∧
    fs_files b' = fs_files (store_all marked b) ∧
    fs_next b' = fs_next (store_all marked b) ∧
    db_bulk_writes b' = db_bulk_writes b ++ batch_sizes (length marked) ∧
    db_aa_cache b'
    = if decide (marked = []) then db_aa_cache b
      else <[name := _archive_urls (index_all marked ml)]> (db_aa_cache b).
Proof.
  intros Hu name cached items marked Hns.
  unfold run_update, MailingList.update.
  rewrite bind_eq. unfold gets at 1. cbn [self backend].
  rewrite bind_eq. unfold gets at 1. cbn [self backend].
  rewrite bind_eq. rewrite imap_fetch_all.
  rewrite check_size_loop_fresh by done.
  cbn [self backend app]. fold name cached items marked.
  rewrite bind_eq.
  destruct (decide (marked = [])) as [Hnil|Hnn].
  - rewrite Hnil. cbn [fmap list_fmap length].
    rewrite decide_False by (simpl; lia).
    unfold mret, M_ret. rewrite bind_eq.
    rewrite decide_False by (simpl; lia).
    rewrite bind_eq. unfold modify, on_self. cbn [self backend].
    exists b. cbn [new_records store_all foldl index_all length].
    rewrite app_nil_r, batch_sizes_0, app_nil_r. done.
  - rewrite decide_True.
    2:{ rewrite length_fmap. destruct marked; [done|simpl; lia]. }
    rewrite bind_eq. unfold marked at 1. unfold items at 1.
    rewrite imap_fetch_marked. fold items. fold marked.
    destruct (fetch_loop marked [] [] (mkEnv ml b)) as
      (b2 & sdocs' & Hrun & Hrows & Hfiles & Hnext & Haa & Hlog & Hlen).
    { simpl. lia. }
    { cbn [self backend app]. by apply fetched_keys_fresh. }
    cbn [self backend app length plus] in *. fold name in Hrun, Hrows.
    change (ops_of name []) with (@nil (Mongo.query * Document)) in Hrun.
    rewrite Hrun. rewrite bind_eq.
    unfold MailingList.persist_archive_urls, modify at 1. cbn [self backend on_backend].
    unfold mret at 1, M_ret at 1. rewrite bind_eq.
    rewrite length_ops_of.
    pose (b3 := set_aa_cache
                  (<[_list_name (index_all marked ml) :=
                     _archive_urls (index_all marked ml)]> (db_aa_cache b2)) b2).
    match goal with
    | |- context [on_backend ?f ?s] =>
        change (on_backend f s) with (mkEnv (index_all marked ml) b3)
    end.
    assert (unique_index (db_messages b2 ++ sdocs')) as Hu2.
    { rewrite Hrows. by apply fetched_keys_fresh. }
    destruct (decide (0 < Z.of_nat (length sdocs'))) as [Hpos|Hzero].
    + rewrite bulk_write_eq. cbn [backend self].
      replace (db_messages b3) with (db_messages b2) by done.
      rewrite bulk_write_inserts by done. cbn [fst snd].
      rewrite bind_eq. unfold modify, on_self, on_backend. cbn [self backend].
      eexists. split; [reflexivity|].
      cbn [db_messages fs_files fs_next db_bulk_writes db_aa_cache
           log_bulk_write set_messages].
      split_and!.
      * by rewrite Hrows.
      * done.
      * done.
      * subst b3. cbn [db_bulk_writes set_aa_cache].
        rewrite Hlog, length_ops_of, Hlen, <- app_assoc.
        unfold batch_sizes. rewrite decide_False by lia. done.
      * subst b3. cbn [db_aa_cache set_aa_cache].
        rewrite index_all_name. fold name. by rewrite Haa.
    + assert (sdocs' = []) as -> by (destruct sdocs'; [done|simpl in Hzero; lia]).
      rewrite app_nil_r in Hrows, Hu2.
      unfold mret at 1, M_ret at 1. cbv beta iota.
      rewrite bind_eq. unfold modify, on_self, on_backend. cbn [self backend].
      eexists. split; [reflexivity|].
      subst b3. cbn [db_messages fs_files fs_next db_bulk_writes db_aa_cache
                     set_aa_cache].
      split_and!.
      * by rewrite Hrows.
      * done.
      * done.
      * rewrite Hlog. unfold batch_sizes.
        simpl in Hlen. rewrite decide_True by (by symmetry). by rewrite app_nil_r.
      * rewrite index_all_name. fold name. by rewrite Haa.
Qed.

(** A run of [update] that meets a stale row raises in the first loop and
    leaves the handle and the database as they were. *)
Lemma update_stale ml mailbox now b item :
  item ∈ imap_items mailbox →
  stale (MailingList.cached_by_uid
           (Mongo.find (q_list (_list_name ml)) (db_messages b))) item = true →
  ∃ e, run_update ml mailbox now b = (mkEnv ml b, Raise e) ∧
       (e = AttributeError ∨ e = NoFile) ∧
       (Forall (λ d, is_Some (fs_files b !! doc_gridfs_id d)) (db_messages b) →
        unique_index (db_messages b) → e = AttributeError).
Proof.
  intros Hin Hstale.
  destruct (check_size_loop_stale _ (imap_items mailbox) [] (mkEnv ml b) item
              Hin Hstale) as (e & Hloop & He & Hblobs).
  exists e. split_and!; [|done|].
  - unfold run_update, MailingList.update.
    rewrite bind_eq. unfold gets at 1. cbn [self backend].
    rewrite bind_eq. unfold gets at 1. cbn [self backend].
    rewrite bind_eq. rewrite imap_fetch_all. by rewrite Hloop.
  - intros Hall Hu. apply Hblobs. intros msg_id c Hc. cbn [backend].
    apply cached_by_uid_lookup in Hc as [Hc _]; [|done].
    rewrite Forall_forall in Hall. by apply Hall.
Qed.

(** The two outcomes of a run. *)
Lemma update_cases ml mailbox now b :
  unique_index (db_messages b) →
  let name := _list_name ml in
  let cached := MailingList.cached_by_uid (Mongo.find (q_list name) (db_messages b)) in
  let marked := List.filter (needs_fetch cached) (imap_items mailbox) in
  (¬ fresh name mailbox (db_messages b) ∧
   ∃ e, run_update ml mailbox now b = (mkEnv ml b, Raise e) ∧
        (e = AttributeError ∨ e = NoFile)) ∨
  (fresh name mailbox (db_messages b) ∧
   ∃ b',
     run_update ml mailbox now b
     = (mkEnv (set_last_updated now (index_all marked ml)) b', Ok marked.*1) ∧
     db_messages b' = db_messages b ++ new_records name (fs_next b) marked ∧
     fs_files b' = fs_files (store_all marked b) ∧
     fs_next b' = fs_next (store_all marked b) ∧
     db_bulk_writes b' = db_bulk_writes b ++ batch_sizes (length marked) ∧
     db_aa_cache b'
     = if decide (marked = []) then db_aa_cache b
       else <[name := _archive_urls (index_all marked ml)]> (db_aa_cache b)).
Proof.
  intros Hu name cached marked.
  destruct (decide (Forall (λ item, stale cached item = false) (imap_items mailbox)))
    as [Hall|Hsome].
  - rewrite Forall_forall in Hall. right. split.
    + by apply stale_false_fresh.
    + by apply update_fresh.
  - left. split.
    + intros Hfresh. apply Hsome. apply Forall_forall.
      by apply (stale_false_fresh name mailbox (db_messages b) Hu).
    + apply not_Forall_Exists in Hsome; [|apply _].
      apply Exists_exists in Hsome as (item & Hin & Hst). cbn in Hst.
      apply not_false_is_true in Hst.
      destruct (update_stale ml mailbox now b item Hin Hst) as (e & He & Hcase & _).
      eauto.
Qed.

(** A run that returns, seen from its result. *)
Lemma update_ok ml mailbox now b s' new_ids :
  unique_index (db_messages b) →
  run_update ml mailbox now b = (s', Ok new_ids) →
  let name := _list_name ml in
  let cached := MailingList.cached_by_uid (Mongo.find (q_list name) (db_messages b)) in
  let marked := List.filter (needs_fetch cached) (imap_items mailbox) in
  fresh name mailbox (db_messages b) ∧
  new_ids = marked.*1 ∧
  self s' = set_last_updated now (index_all marked ml) ∧
  db_messages (backend s') = db_messages b ++ new_records name (fs_next b) marked ∧
  fs_files (backend s') = fs_files (store_all marked b) ∧
  fs_next (backend s') = fs_next (store_all marked b) ∧
  db_bulk_writes (backend s') = db_bulk_writes b ++ batch_sizes (length marked) ∧
  db_aa_cache (backend s')
  = if decide (marked = []) then db_aa_cache b
    else <[name := _archive_urls (index_all marked ml)]> (db_aa_cache b).
Proof.
  intros Hu Hrun. cbn zeta.
  destruct (update_cases ml mailbox now b Hu)
    as [(_ & e & He & _)|(Hfresh & b' & Hrun' & Hrest)]; [congruence|].
  rewrite Hrun in Hrun'. injection Hrun' as -> ->. by split.
Qed.

End Update.

(** ** Runs keep the state well-formed *)

Section WellFormed.
Context `{Externals}.

Lemma wf_empty_backend : wf_backend empty_backend.
Proof.
  split; simpl.
  - constructor.
  - constructor.
  - constructor.
  - apply map_Forall_empty.
Qed.

Lemma new_records_gid_bounds name gid items d :
  d ∈ new_records name gid items →
  (gid ≤ doc_gridfs_id d < gid + N.of_nat (length items))%N.
Proof.
  revert gid. induction items as [|[msg_id msg] items IH]; intros gid Hd.
  - inversion Hd.
  - cbn [new_records length] in *. apply elem_of_cons in Hd as [->|Hd].
    + destruct (record_of_fields name msg_id gid (rfc822 msg)) as (_ & _ & -> & _).
      lia.
    + apply IH in Hd. lia.
Qed.

Lemma new_records_gid_NoDup name gid items :
  NoDup (doc_gridfs_id <$> new_records name gid items).
Proof.
  revert gid. induction items as [|[msg_id msg] items IH]; intros gid.
  - constructor.
  - cbn [new_records fmap list_fmap]. apply NoDup_cons. split; [|apply IH].
    intros Hin. apply list_elem_of_fmap in Hin as (d & Hg & Hd).
    apply new_records_gid_bounds in Hd.
    destruct (record_of_fields name msg_id gid (rfc822 msg)) as (_ & _ & Hg' & _).
    lia.
Qed.

Lemma store_all_next items b :
  fs_next (store_all items b) = (fs_next b + N.of_nat (length items))%N.
Proof.
  revert b. induction items as [|item items IH]; intros b.
  - simpl. lia.
  - rewrite store_all_cons, IH. cbn [store_one fs_next set_next length]. lia.
Qed.

Lemma store_all_old items b k :
  (k < fs_next b)%N → fs_files (store_all items b) !! k = fs_files b !! k.
Proof.
  revert b. induction items as [|item items IH]; intros b Hk; [done|].
  rewrite store_all_cons, IH by (simpl; lia).
  cbn [store_one fs_files set_next set_files]. apply lookup_insert_ne. lia.
Qed.

Lemma store_all_new items b k :
  (fs_next b ≤ k < fs_next b + N.of_nat (length items))%N →
  is_Some (fs_files (store_all items b) !! k).
Proof.
  revert b. induction items as [|item items IH]; intros b Hk.
  - simpl in Hk. lia.
  - rewrite store_all_cons. cbn [length] in Hk.
    destruct (decide (k = fs_next b)) as [->|Hne].
    + rewrite store_all_old by (simpl; lia).
      cbn [store_one fs_files set_next set_files]. rewrite lookup_insert_eq. eauto.
    + apply IH. simpl. lia.
Qed.

Lemma store_all_fresh items b :
  map_Forall (λ id _, (id < fs_next b)%N) (fs_files b) →
  map_Forall (λ id _, (id < fs_next (store_all items b))%N)
             (fs_files (store_all items b)).
Proof.
  revert b. induction items as [|item items IH]; intros b Hf; [done|].
  rewrite store_all_cons. apply IH.
  cbn [store_one fs_files fs_next set_next set_files].
  apply map_Forall_insert_2; [lia|].
  eapply map_Forall_impl; [exact Hf|]. simpl. intros. lia.
Qed.

(** Each fetched message has a new record, and the blob of that record
    holds the bytes of the message. *)
Lemma new_records_stored name items b msg_id msg :
  (msg_id, msg) ∈ items →
  ∃ g, (fs_next b ≤ g)%N ∧
       record_of name msg_id g (rfc822 msg) ∈ new_records name (fs_next b) items ∧
       fs_files (store_all items b) !! g = Some (rfc822 msg).
Proof.
  revert b. induction items as [|[i m] items IH]; intros b Hin.
  - inversion Hin.
  - cbn [new_records]. rewrite store_all_cons.
    apply elem_of_cons in Hin as [[= <- <-]|Hin].
    + exists (fs_next b). split_and!; [lia|apply elem_of_cons; auto|].
      rewrite store_all_old by (simpl; lia).
      cbn [store_one fs_files set_next set_files fst snd]. apply lookup_insert_eq.
    + destruct (IH (store_one (rfc822 m) b) Hin) as (g & Hg & Hd & Hblob).
      cbn [store_one fs_next set_next set_files fst snd] in *.
      exists g. split_and!; [lia|apply elem_of_cons; auto|done].
Qed.

Lemma wf_row_gid_lt b d :
  wf_backend b → d ∈ db_messages b → (doc_gridfs_id d < fs_next b)%N.
Proof.
  intros [_ Hb _ Hf] Hd. rewrite Forall_forall in Hb.
  destruct (Hb d Hd) as [data Hdata]. exact (Hf _ _ Hdata).
Qed.

(** A run from a well-formed state ends in a well-formed state. *)
Lemma wf_backend_update ml mailbox now b :
  wf_backend b → wf_backend (backend (run_update ml mailbox now b).1).
Proof.
  intros Hwf.
  destruct (update_cases ml mailbox now b (wf_unique _ Hwf))
    as [(_ & e & -> & _)|(Hfresh & b' & -> & Hrows & Hfiles & Hnext & _ & _)];
    [done|].
  cbn [fst backend].
  set (name := _list_name ml) in *.
  set (cached := MailingList.cached_by_uid _) in *.
  set (marked := List.filter _ _) in *.
  split.
  - rewrite Hrows. apply fetched_keys_fresh; [apply Hwf|].
    by apply (stale_false_fresh name mailbox (db_messages b) (wf_unique _ Hwf)).
  - rewrite Hrows, Hfiles. apply Forall_app. split; apply Forall_forall; intros d Hd.
    + rewrite store_all_old by (by apply wf_row_gid_lt).
      destruct Hwf as [_ Hb _ _]. rewrite Forall_forall in Hb. by apply Hb.
    + apply new_records_gid_bounds in Hd. apply store_all_new. lia.
  - rewrite Hrows, fmap_app. apply NoDup_app. split_and!.
    + apply Hwf.
    + intros g Hg Hg'.
      apply list_elem_of_fmap in Hg as (d & -> & Hd).
      apply list_elem_of_fmap in Hg' as (d' & Hgg & Hd').
      apply (wf_row_gid_lt _ _ Hwf) in Hd.
      apply new_records_gid_bounds in Hd'. lia.
    + apply new_records_gid_NoDup.
  - rewrite Hfiles, Hnext. apply store_all_fresh, Hwf.
Qed.

Lemma wf_backend_run_updates runs b :
  wf_backend b → wf_backend (run_updates runs b).
Proof.
  revert b. induction runs as [|[[ml mailbox] now] runs IH]; intros b Hwf; [done|].
  simpl. apply IH. by apply wf_backend_update.
Qed.

End WellFormed.

(** ** Runs from any state *)

Section AnyState.
Context `{Externals}.

Lemma foldM_state_inv {A B} (I : Env → Prop) (f : B → A → M B) l b s :
  (∀ b x s, I s → I (f b x s).1) → I s → I (foldM f l b s).1.
Proof.
  intros Hf. revert b s. induction l as [|x l IH]; intros b s Hs; [done|].
  rewrite foldM_cons. pose proof (Hf b x s Hs) as Hs'.
  destruct (f b x s) as [s' [b'|e]]; simpl in Hs'; [by apply IH|done].
Qed.

Lemma check_size_state cached acc item s :
  self (MailingList.check_size cached acc item s).1 = self s ∧
  (unique_index (db_messages (backend s)) →
   unique_index (db_messages (backend (MailingList.check_size cached acc item s).1))).
Proof. by rewrite check_size_cases. Qed.

Lemma bulk_write_state ops s :
  self (MailingList.bulk_write ops s).1 = self s ∧
  (unique_index (db_messages (backend s)) →
   unique_index (db_messages (backend (MailingList.bulk_write ops s).1))).
Proof.
  rewrite bulk_write_eq. simpl. split; [done|]. apply bulk_write_unique.
Qed.

Lemma fetch_one_unique acc item s :
  unique_index (db_messages (backend s)) →
  unique_index (db_messages (backend (MailingList.fetch_one acc item s).1)).
Proof.
  intros Hu. destruct acc as [staged new], item as [msg_id msg].
  rewrite fetch_one_eq. cbn zeta.
  destruct (decide _); [|done].
  match goal with |- context [MailingList.bulk_write ?o ?t] =>
    pose proof (bulk_write_state o t) as [_ Hb];
    destruct (MailingList.bulk_write o t) as [s2 [[]|e]] end;
  simpl in *; by apply Hb.
Qed.

(** Each pass of the second loop that returns adds one to the count and
    one UID to the result. *)
Lemma fetch_one_count acc item s acc' s' :
  MailingList.fetch_one acc item s = (s', Ok acc') →
  _num_messages (self s') = _num_messages (self s) + 1 ∧
  acc'.2 = acc.2 ++ [item.1].
Proof.
  destruct acc as [staged new], item as [msg_id msg].
  rewrite fetch_one_eq. cbn zeta.
  destruct (decide _).
  - match goal with |- context [MailingList.bulk_write ?o ?t] =>
      pose proof (bulk_write_state o t) as [Hself _];
      destruct (MailingList.bulk_write o t) as [s2 [[]|e]] end; [|discriminate].
    intros [= <- <-]. cbn [fst snd self] in *. rewrite Hself. split; [|done].
    exact (index_one_num (msg_id, msg) (self s)).
  - intros [= <- <-]. cbn [fst snd self]. split; [|done].
    exact (index_one_num (msg_id, msg) (self s)).
Qed.

Lemma fetch_loop_count items acc s acc' s' :
  foldM MailingList.fetch_one items acc s = (s', Ok acc') →
  _num_messages (self s') = _num_messages (self s) + Z.of_nat (length items) ∧
  acc'.2 = acc.2 ++ items.*1.
Proof.
  revert acc s. induction items as [|item items IH]; intros acc s Hrun.
  - injection Hrun as <- <-. simpl. rewrite app_nil_r. split; [lia|done].
  - rewrite foldM_cons in Hrun.
    destruct (MailingList.fetch_one acc item s) as [s1 [acc1|e]] eqn:Hstep;
      [|discriminate].
    apply fetch_one_count in Hstep as [Hn Ha].
    apply IH in Hrun as [Hn' Ha']. rewrite Hn', Hn, Ha', Ha.
    cbn [length fmap list_fmap]. rewrite <- app_assoc. split; [lia|done].
Qed.

(** The unique index holds after a run, however the run ends. *)
Lemma update_unique ml mailbox now b :
  unique_index (db_messages b) →
  unique_index (db_messages (backend (run_update ml mailbox now b).1)).
Proof.
  intros Hu. unfold run_update, MailingList.update.
  rewrite bind_eq. unfold gets at 1. cbn [self backend].
  rewrite bind_eq. unfold gets at 1. cbn [self backend].
  rewrite bind_eq.
  match goal with |- context [foldM (MailingList.check_size ?c0) ?l0 ?a0 ?s0] =>
    pose proof (foldM_state_inv
      (λ s, unique_index (db_messages (backend s)))
      (MailingList.check_size c0) l0 a0 s0
      (λ b x s, proj2 (check_size_state c0 b x s)) Hu) as Hu1;
    destruct (foldM (MailingList.check_size c0) l0 a0 s0) as [s1 [msg_fetch|e]]
  end; [|done].
  cbn [fst] in Hu1. rewrite bind_eq.
  assert (∃ s2 r,
    (if decide (0 < Z.of_nat (length msg_fetch)) is left _
     then r ← foldM MailingList.fetch_one (imap_fetch mailbox msg_fetch) ([], []);
          MailingList.persist_archive_urls;; mret r
     else mret ([], [])) s1 = (s2, r) ∧
    unique_index (db_messages (backend s2))) as (s2 & r & -> & Hu2).
  { destruct (decide _).
    - rewrite bind_eq.
      match goal with |- context [foldM MailingList.fetch_one ?l0 ?a0 ?s0] =>
        pose proof (foldM_state_inv
          (λ s, unique_index (db_messages (backend s)))
          MailingList.fetch_one l0 a0 s0 fetch_one_unique Hu1) as Hu2;
        destruct (foldM MailingList.fetch_one l0 a0 s0) as [s2 [r|e]]
      end; cbn [fst] in Hu2; eauto.
    - eauto. }
  destruct r as [[cache_replaces new_msgs]|e]; [|done].
  rewrite bind_eq.
  destruct (decide _).
  - pose proof (bulk_write_state cache_replaces s2) as [_ Hb].
    destruct (MailingList.bulk_write cache_replaces s2) as [s3 [[]|e]];
      simpl in *; by apply Hb.
  - simpl. done.
Qed.

Lemma run_updates_unique runs b :
  unique_index (db_messages b) → unique_index (db_messages (run_updates runs b)).
Proof.
  revert b. induction runs as [|[[ml mailbox] now] runs IH]; intros b Hu; [done|].
  simpl. apply IH. by apply update_unique.
Qed.

(** A run that returns has added to the count the number of UIDs it
    returns. *)
Lemma update_count ml mailbox now b s' new :
  run_update ml mailbox now b = (s', Ok new) →
  _num_messages (self s') = _num_messages ml + Z.of_nat (length new).
Proof.
  unfold run_update, MailingList.update.
  rewrite bind_eq. unfold gets at 1. cbn [self backend].
  rewrite bind_eq. unfold gets at 1. cbn [self backend].
  rewrite bind_eq.
  match goal with |- context [foldM (MailingList.check_size ?c0) ?l0 ?a0 ?s0] =>
    pose proof (foldM_state_inv (λ s, self s = ml)
      (MailingList.check_size c0) l0 a0 s0) as Hs1;
    destruct (foldM (MailingList.check_size c0) l0 a0 s0) as [s1 [msg_fetch|e]]
  end; [|discriminate].
  cbn [fst] in Hs1.
  assert (self s1 = ml) as Hself1.
  { apply Hs1; [|done]. intros b0 x s0 <-. apply check_size_state. }
  clear Hs1. rewrite bind_eq.
  destruct (decide (0 < Z.of_nat (length msg_fetch))).
  - rewrite bind_eq.
    destruct (foldM MailingList.fetch_one _ _ s1) as [s2 [[cr nm]|e]] eqn:Hloop;
      [|discriminate].
    apply fetch_loop_count in Hloop as [Hn Hnm]. simpl in Hnm. subst nm.
    rewrite bind_eq. unfold MailingList.persist_archive_urls, modify at 1.
    unfold mret at 1, M_ret at 1. rewrite bind_eq.
    destruct (decide _).
    + match goal with |- context [MailingList.bulk_write ?o ?t] =>
        pose proof (bulk_write_state o t) as [Hself _];
        destruct (MailingList.bulk_write o t) as [s3 [[]|e]] end; [|discriminate].
      intros [= <- <-]. simpl in *. rewrite Hself. simpl.
      rewrite Hn, Hself1, length_fmap. done.
    + intros [= <- <-]. simpl. rewrite Hn, Hself1, length_fmap. done.
  - unfold mret at 1, M_ret at 1. rewrite bind_eq.
    rewrite decide_False by (simpl; lia).
    intros [= <- <-]. simpl. rewrite Hself1. lia.
Qed.

End AnyState.

(** ** What a run leaves in the cache *)

Section Outcome.
Context `{Externals}.

Lemma new_records_elem name gid items msg_id msg :
  (msg_id, msg) ∈ items →
  ∃ g, (gid ≤ g)%N ∧ record_of name msg_id g (rfc822 msg) ∈ new_records name gid items.
Proof.
  revert gid. induction items as [|[i m] items IH]; intros gid Hin.
  - inversion Hin.
  - cbn [new_records]. apply elem_of_cons in Hin as [[= <- <-]|Hin].
    + exists gid. split; [lia|]. apply elem_of_cons. auto.
    + destruct (IH (N.succ gid) Hin) as (g & Hg & Hd).
      exists g. split; [lia|]. apply elem_of_cons. auto.
Qed.

Lemma elem_of_new_records name gid items d :
  d ∈ new_records name gid items →
  ∃ msg_id msg g, (msg_id, msg) ∈ items ∧ d = record_of name msg_id g (rfc822 msg).
Proof.
  revert gid. induction items as [|[i m] items IH]; intros gid Hd.
  - inversion Hd.
  - cbn [new_records] in Hd. apply elem_of_cons in Hd as [->|Hd].
    + exists i, m, gid. split; [apply elem_of_cons; auto|done].
    + destruct (IH _ Hd) as (i' & m' & g & Hin & ->).
      exists i', m', g. split; [apply elem_of_cons; auto|done].
Qed.

Lemma find_by_key coll d :
  unique_index coll → d ∈ coll →
  Mongo.find (q_list_imap_uid (doc_list d) (doc_imap_uid d)) coll = [d].
Proof.
  unfold unique_index. induction coll as [|c coll IH]; intros Hnd Hd.
  - inversion Hd.
  - rewrite fmap_cons in Hnd. apply NoDup_cons in Hnd as [Hc Hnd].
    unfold Mongo.find in *. cbn [List.filter].
    rewrite matches_q_list_imap_uid.
    apply elem_of_cons in Hd as [<-|Hd].
    + rewrite bool_decide_eq_true_2 by done. f_equal.
      assert (∀ l : list Document, Mongo.index_key d ∉ Mongo.index_key <$> l →
        List.filter (Mongo.matches (q_list_imap_uid (doc_list d) (doc_imap_uid d))) l = [])
        as Haux; [|by apply Haux].
      clear. induction l as [|x l IH]; intros Hn; [done|].
      rewrite fmap_cons, not_elem_of_cons in Hn. destruct Hn as [Hx Hl].
      cbn [List.filter]. rewrite matches_q_list_imap_uid.
      rewrite bool_decide_eq_false_2; [by apply IH|].
      intros Hk. apply Hx. symmetry. exact Hk.
    + rewrite bool_decide_eq_false_2; [by apply IH|].
      intros Hk. apply Hc. rewrite Hk.
      exact (list_elem_of_fmap_2 Mongo.index_key coll d Hd).
Qed.

(** After a run that returns, with a server that reports as size the
    length of each message, every message of the folder has a row of the
    size that the server reports. *)
Lemma update_covers ml mailbox now b s' new_ids msg_id msg :
  unique_index (db_messages b) → imap_consistent mailbox →
  run_update ml mailbox now b = (s', Ok new_ids) →
  mailbox !! msg_id = Some msg →
  ∃ c, c ∈ db_messages (backend s') ∧
       Mongo.index_key c = (_list_name ml, msg_id) ∧
       doc_size c = rfc822_size msg.
Proof.
  intros Hu Hcons Hrun Hmsg.
  destruct (update_ok ml mailbox now b s' new_ids Hu Hrun)
    as (Hfresh & _ & _ & Hrows & _).
  rewrite Hrows.
  set (name := _list_name ml) in *.
  set (cached := MailingList.cached_by_uid _) in *.
  assert ((msg_id, msg) ∈ imap_items mailbox) as Hin by (by apply elem_of_imap_items).
  destruct (needs_fetch cached (msg_id, msg)) eqn:Hnf.
  - destruct (new_records_elem name (fs_next b)
                (List.filter (needs_fetch cached) (imap_items mailbox)) msg_id msg)
      as (g & _ & Hd); [by apply elem_of_list_filter|].
    eexists. split; [apply elem_of_app; right; exact Hd|].
    split; [apply record_of_key|].
    destruct (record_of_fields name msg_id g (rfc822 msg)) as (_ & _ & _ & ->).
    symmetry. exact (Hcons _ _ Hmsg).
  - unfold needs_fetch in Hnf. simpl in Hnf.
    destruct (cached !! msg_id) as [c|] eqn:Hc; [|discriminate].
    apply bool_decide_eq_false in Hnf. apply dec_stable in Hnf.
    apply cached_by_uid_lookup in Hc as [Hcin Hkey]; [|done].
    exists c. split; [|done]. apply elem_of_app. by left.
Qed.

(** After a run that returns, no row of the list is stale for the same
    folder, when the server reports as size the length of each message. *)
Lemma update_fresh_after ml mailbox now b s' new_ids :
  unique_index (db_messages b) → imap_consistent mailbox →
  run_update ml mailbox now b = (s', Ok new_ids) →
  fresh (_list_name ml) mailbox (db_messages (backend s')).
Proof.
  intros Hu Hcons Hrun.
  destruct (update_ok ml mailbox now b s' new_ids Hu Hrun)
    as (Hfresh & _ & _ & Hrows & _).
  intros msg_id msg c Hmsg Hc Hk. rewrite Hrows in Hc.
  apply elem_of_app in Hc as [Hc|Hc]; [by apply (Hfresh msg_id msg c)|].
  apply elem_of_new_records in Hc as (i & m & g & Hin & ->).
  rewrite record_of_key in Hk. injection Hk as <-.
  apply elem_of_list_filter in Hin as [Hin _].
  apply elem_of_imap_items in Hin.
  assert (m = msg) as -> by congruence.
  destruct (record_of_fields (_list_name ml) i g (rfc822 msg)) as (_ & _ & _ & ->).
  symmetry. exact (Hcons _ _ Hmsg).
Qed.

(** A second run on the unchanged folder, after a run that returned,
    finds nothing to do. *)
Lemma update_twice ml mailbox now1 now2 b s1 new_ids :
  unique_index (db_messages b) → imap_consistent mailbox →
  run_update ml mailbox now1 b = (s1, Ok new_ids) →
  run_update (self s1) mailbox now2 (backend s1)
  = (mkEnv (set_last_updated now2 (self s1)) (backend s1), Ok []).
Proof.
  intros Hu Hcons Hrun.
  pose proof (update_unique ml mailbox now1 b Hu) as Hu1.
  pose proof (update_fresh_after ml mailbox now1 b s1 new_ids Hu Hcons Hrun) as Hfresh1.
  assert (∀ msg_id msg, mailbox !! msg_id = Some msg →
    ∃ c, c ∈ db_messages (backend s1) ∧
         Mongo.index_key c = (_list_name ml, msg_id) ∧
         doc_size c = rfc822_size msg) as Hcov
    by (intros i m Hm;
        exact (update_covers ml mailbox now1 b s1 new_ids i m Hu Hcons Hrun Hm)).
  assert (_list_name (self s1) = _list_name ml) as Hname.
  { destruct (update_ok ml mailbox now1 b s1 new_ids Hu Hrun) as (_ & _ & -> & _).
    cbn [_list_name set_last_updated]. apply index_all_name. }
  rewrite Hrun in Hu1. cbn [fst] in Hu1.
  destruct (update_fresh (self s1) mailbox now2 (backend s1) Hu1)
    as (b'' & Hrun2 & Hrows & Hfiles & Hnext & Hlog & Haa).
  { apply stale_false_fresh; [done|]. by rewrite Hname. }
  rewrite Hname in *.
  set (name := _list_name ml) in *.
  set (cached2 := MailingList.cached_by_uid
                    (Mongo.find (q_list name) (db_messages (backend s1)))) in *.
  assert (List.filter (needs_fetch cached2) (imap_items mailbox) = []) as Hnil.
  { assert (∀ l : list (Z * RemoteMessage),
      (∀ item, item ∈ l → needs_fetch cached2 item = false) →
      List.filter (needs_fetch cached2) l = []) as Haux.
    { clear. induction l as [|x l IH]; intros Hl; [done|].
      cbn [List.filter]. rewrite Hl by (apply elem_of_cons; auto).
      apply IH. intros y ?. apply Hl. apply elem_of_cons; auto. }
    apply Haux. intros [msg_id msg] Hin. apply elem_of_imap_items in Hin.
    destruct (Hcov msg_id msg Hin) as (c & Hc & Hk & Hsz).
    unfold needs_fetch. simpl.
    assert (cached2 !! msg_id = Some c) as ->
      by (apply cached_by_uid_lookup; [done|done]).
    by apply bool_decide_eq_false_2; intros ?. }
  rewrite Hnil in *.
  cbn [index_all foldl new_records store_all fmap list_fmap length] in *.
  rewrite batch_sizes_0 in Hlog. rewrite app_nil_r in Hrows, Hlog.
  rewrite decide_True in Haa by done.
  rewrite Hrun2. f_equal. f_equal.
  destruct b'', (backend s1); simpl in *; congruence.
Qed.

End Outcome.

(** ** Python strings *)

Lemma find_from_bounds needle s i :
  Py.find_from needle s i = -1 ∨ i ≤ Py.find_from needle s i.
Proof.
  revert i. induction s as [|c s IH]; intros i; cbn [Py.find_from].
  - destruct (String.prefix needle ""); [right; lia|by left].
  - destruct (String.prefix needle (String c s)); [right; lia|].
    destruct (IH (i + 1)) as [?|?]; [by left|right; lia].
Qed.

Lemma find_absent needle s :
  Py.contains needle s = false → Py.find s needle = -1.
Proof.
  unfold Py.contains, Py.find. intros Hc. apply Z.leb_gt in Hc.
  destruct (find_from_bounds needle s 0); lia.
Qed.

Lemma substring_0 n s : String.substring n 0 s = "".
Proof.
  revert s. induction n as [|n IH]; intros [|c s]; simpl; auto.
Qed.

Lemma slice_past_end s k :
  Py.len s ≤ k → Py.slice s (Some k) None = "".
Proof.
  intros Hk. unfold Py.slice, Py.slice_index.
  destruct (k <? 0) eqn:Hneg; [apply Z.ltb_lt in Hneg; unfold Py.len in Hk; lia|].
  rewrite Z.min_r by lia. rewrite Z.sub_diag. apply substring_0.
Qed.

Lemma append_nil_l (b : string) : "" +:+ b = b.
Proof. reflexivity. Qed.

Lemma append_cons c (a b : string) : String c a +:+ b = String c (a +:+ b).
Proof. reflexivity. Qed.

Lemma len_append a b : Py.len (a +:+ b) = Py.len a + Py.len b.
Proof.
  unfold Py.len. induction a as [|c a IH].
  - rewrite append_nil_l. simpl. lia.
  - rewrite append_cons. cbn [String.length]. lia.
Qed.

Lemma append_assoc (a b c : string) : (a +:+ b) +:+ c = a +:+ (b +:+ c).
Proof.
  induction a as [|x a IH]; [done|]. by rewrite !append_cons, IH.
Qed.

Lemma substring_all b : String.substring 0 (String.length b) b = b.
Proof. induction b as [|c b IH]; simpl; [done|]. by rewrite IH. Qed.

Lemma substring_append_l a b :
  String.substring 0 (String.length a) (a +:+ b) = a.
Proof.
  induction a as [|c a IH].
  - rewrite append_nil_l. by destruct b.
  - rewrite append_cons. simpl. by rewrite IH.
Qed.

Lemma substring_append_r a b :
  String.substring (String.length a) (String.length b) (a +:+ b) = b.
Proof.
  induction a as [|c a IH]; [apply substring_all|].
  rewrite append_cons. simpl. exact IH.
Qed.

(** [(a + b)[:len(a)] == a] *)
Lemma slice_append_l a b : Py.slice (a +:+ b) None (Some (Py.len a)) = a.
Proof.
  unfold Py.slice, Py.slice_index. rewrite len_append.
  unfold Py.len. destruct (Z.of_nat (String.length a) <? 0) eqn:Hneg;
    [apply Z.ltb_lt in Hneg; lia|].
  rewrite Z.min_l by lia. rewrite Z.sub_0_r, Nat2Z.id. apply substring_append_l.
Qed.

(** [(a + b)[len(a):] == b] *)
Lemma slice_append_r a b : Py.slice (a +:+ b) (Some (Py.len a)) None = b.
Proof.
  unfold Py.slice, Py.slice_index. rewrite len_append.
  unfold Py.len. destruct (Z.of_nat (String.length a) <? 0) eqn:Hneg;
    [apply Z.ltb_lt in Hneg; lia|].
  rewrite Z.min_l by lia.
  replace (Z.of_nat (String.length a) + Z.of_nat (String.length b)
           - Z.of_nat (String.length a)) with (Z.of_nat (String.length b)) by lia.
  rewrite !Nat2Z.id. apply substring_append_r.
Qed.

Lemma prefix_append a b : String.prefix a (a +:+ b) = true.
Proof.
  induction a as [|c a IH]; [by destruct b|].
  rewrite append_cons. simpl. by destruct (ascii_dec c c).
Qed.

(** Where a search starts counting does not change whether it finds. *)
Lemma find_from_shift needle s i j :
  0 ≤ i → 0 ≤ j →
  Py.find_from needle s i = -1 → Py.find_from needle s j = -1.
Proof.
  revert i j. induction s as [|c s IH]; intros i j Hi Hj; cbn [Py.find_from].
  - destruct (String.prefix needle ""); [lia|done].
  - destruct (String.prefix needle (String c s)); [lia|].
    apply IH; lia.
Qed.

Lemma contains_cons_false needle c s :
  Py.contains needle (String c s) = false →
  String.prefix needle (String c s) = false ∧ Py.contains needle s = false.
Proof.
  unfold Py.contains, Py.find. intros Hc. apply Z.leb_gt in Hc.
  cbn [Py.find_from] in Hc.
  destruct (String.prefix needle (String c s)); [lia|]. split; [done|].
  apply Z.leb_gt.
  destruct (find_from_bounds needle s (0 + 1)) as [Hn|Hn]; [|lia].
  rewrite (find_from_shift needle s (0 + 1) 0); [lia|lia|lia|done].
Qed.

(** The first occurrence of [needle] in [a + needle + rest] is at
    [len(a)] when [a] does not contain the first character of [needle]. *)
Lemma find_from_skip c0 needle a rest i :
  Py.contains (String c0 EmptyString) a = false →
  Py.find_from (String c0 needle) (a +:+ String c0 needle +:+ rest) i
  = i + Py.len a.
Proof.
  revert i. induction a as [|c a IH]; intros i Hc.
  - rewrite append_nil_l.
    destruct (String c0 needle +:+ rest) eqn:Hs; [discriminate|].
    cbn [Py.find_from]. rewrite <- Hs, prefix_append. unfold Py.len. simpl. lia.
  - apply contains_cons_false in Hc as [Hp Hc].
    rewrite append_cons. cbn [Py.find_from].
    assert (String.prefix (String c0 needle)
              (String c (a +:+ String c0 needle +:+ rest)) = false) as ->.
    { simpl in Hp |- *. destruct (ascii_dec c0 c); [by destruct a|done]. }
    rewrite IH by done. unfold Py.len. cbn [String.length]. lia.
Qed.

(** [s[:-1]] drops the last character. *)
Lemma slice_drop_last t c : Py.slice (t +:+ String c "") None (Some (-1)) = t.
Proof.
  unfold Py.slice, Py.slice_index. rewrite len_append.
  change (-1 <? 0) with true. cbv iota.
  replace (Z.max 0 (-1 + (Py.len t + Py.len (String c "")))) with (Py.len t)
    by (unfold Py.len; simpl; lia).
  unfold Py.len. rewrite Z.sub_0_r, Nat2Z.id. apply substring_append_l.
Qed.

(** [s[0:] == s] *)
Lemma slice_from_0 s : Py.slice s (Some 0) None = s.
Proof.
  unfold Py.slice, Py.slice_index. change (0 <? 0) with false. cbv iota.
  rewrite Z.min_l by (unfold Py.len; lia).
  unfold Py.len. rewrite Z.sub_0_r, Nat2Z.id. apply substring_all.
Qed.

(** ** The lookups *)

(** [message] never returns: after [raw_message] it reads an attribute
    that the class never sets. *)
Lemma message_raises `{Externals} ml b msg_id :
  ∃ e, MailingList.message ml b msg_id = Raise e.
Proof.
  unfold MailingList.message.
  destruct (MailingList.raw_message ml b msg_id); simpl; eauto.
Qed.

(** Resolving an archive URL never returns either: every path ends in
    [raise], in a failed [assert] or lookup, or in [message]. *)
Lemma list_message_from_archive_url_raises `{Externals} ml b url :
  ∃ e, MailingList.message_from_archive_url ml b url = Raise e.
Proof.
  unfold MailingList.message_from_archive_url.
  destruct (_parse_archive_url url) as [ln mh].
  destruct (decide (ln = _list_name ml)); eauto.
  destruct (_archive_urls ml !! mh); eauto. apply message_raises.
Qed.

Lemma message_from_archive_url_raises `{Externals} fuel : ∀ url a,
  ∃ e, (MailArchive.message_from_archive_url fuel url a).2 = Raise e.
Proof.
  assert (∀ url a,
    ∃ e, (let '(list_name, _) := _parse_archive_url url in
          match MailArchive.mailing_list list_name a with
          | (a', Ok ml) => (a', MailingList.message_from_archive_url ml (_db a') url)
          | (a', Raise e) => (a', Raise e)
          end).2 = Raise e) as Hcanon.
  { intros url a. destruct (_parse_archive_url url) as [ln mh].
    destruct (MailArchive.mailing_list ln a) as [a' [ml|e]]; simpl; eauto.
    apply list_message_from_archive_url_raises. }
  induction fuel as [|fuel IH]; intros url a;
    cbn [MailArchive.message_from_archive_url];
    (destruct (Py.contains "//www.ietf.org/mail-archive/web/" url);
     [destruct (requests_get_url url) as [u|e]; [|simpl; eauto];
      destruct (Py.contains "//mailarchive.ietf.org/arch/msg" u); simpl; eauto
     |destruct (Py.contains "//mailarchive.ietf.org/arch/msg" url);
      [apply Hcanon|simpl; eauto]]).
Qed.

(** * The claims *)

(** ** Examples of [_parse_archive_url] *)

Example parse_canonical :
  _parse_archive_url "https://mailarchive.ietf.org/arch/msg/example-list/abc123"
  = ("example-list", "abc123").
Proof. reflexivity. Qed.

Example parse_bracketed :
  _parse_archive_url "<https://mailarchive.ietf.org/arch/msg/quic/Xy_9>"
  = ("quic", "Xy_9>").
Proof. reflexivity. Qed.

Example parse_no_slash :
  _parse_archive_url "https://mailarchive.ietf.org/arch/msg/abc" = ("ab", "abc").
Proof. reflexivity. Qed.

(** ** C2 *)

(** C2, as amended.  Two runs of [update] in a row on an unchanged
    folder, with a server that reports as size the length of each
    message: when the first run returns, the second returns no new UID,
    and it leaves the message count and the stored rows as the first run
    left them. *)
Theorem C2_second_run_is_idle `{Externals} ml mailbox now1 now2 b s1 new_ids :
  unique_index (db_messages b) → imap_consistent mailbox →
  run_update ml mailbox now1 b = (s1, Ok new_ids) →
  let r2 := run_update (self s1) mailbox now2 (backend s1) in
  r2.2 = Ok [] ∧
  MailingList.num_messages (self r2.1) = MailingList.num_messages (self s1) ∧
  db_messages (backend r2.1) = db_messages (backend s1) ∧
  Mongo.count (q_list (_list_name ml)) (db_messages (backend r2.1))
  = Mongo.count (q_list (_list_name ml)) (db_messages (backend s1)).
Proof.
  intros Hu Hcons Hrun. cbn zeta.
  rewrite (update_twice ml mailbox now1 now2 b s1 new_ids Hu Hcons Hrun). done.
Qed.

(** ** C4 *)


(** ** C7 *)


(** ** C8 *)

(** C8, as amended.  [_parse_archive_url] does not fail.  For a URL
    without the marker it computes its result from the text after the
    first 32 characters of the URL, stripped: the text before the first
    slash and the text after it when there is a slash; the text without
    its last character and the whole text when there is none; two empty
    strings when the text is empty, as for every URL of at most 32
    characters.  The facade is what rejects: a URL with neither
    ["//www.ietf.org/mail-archive/web/"] nor
    ["//mailarchive.ietf.org/arch/msg"] raises [RuntimeError] and leaves
    the archive as it was. *)
Theorem C8_parse_never_fails :
  (∀ url l h,
     Py.contains "://mailarchive.ietf.org/arch/msg" url = false →
     Py.strip (Py.slice url (Some 32) None) = l +:+ "/" +:+ h →
     Py.contains "/" l = false →
     _parse_archive_url url = (l, h)) ∧
  (∀ url t c,
     Py.contains "://mailarchive.ietf.org/arch/msg" url = false →
     Py.strip (Py.slice url (Some 32) None) = t +:+ String c "" →
     Py.contains "/" (t +:+ String c "") = false →
     _parse_archive_url url = (t, t +:+ String c "")) ∧
  (∀ url,
     Py.contains "://mailarchive.ietf.org/arch/msg" url = false →
     Py.strip (Py.slice url (Some 32) None) = "" →
     _parse_archive_url url = ("", "")) ∧
  (∀ url,
     Py.contains "://mailarchive.ietf.org/arch/msg" url = false →
     Py.len url ≤ 32 → _parse_archive_url url = ("", "")) ∧
  (∀ (E : Externals) fuel url a,
     Py.contains "//www.ietf.org/mail-archive/web/" url = false →
     Py.contains "//mailarchive.ietf.org/arch/msg" url = false →
     @MailArchive.message_from_archive_url E fuel url a = (a, Raise RuntimeError)).
Proof.
  split_and!.
  - intros url l h Hc Hstrip Hl. unfold _parse_archive_url.
    rewrite (find_absent _ _ Hc). change (-1 + 33) with 32. rewrite Hstrip.
    assert (Py.find (l +:+ "/" +:+ h) "/" = Py.len l) as ->.
    { unfold Py.find. change (l +:+ "/" +:+ h) with (l +:+ String "/" "" +:+ h).
      rewrite find_from_skip by done. lia. }
    f_equal; [apply slice_append_l|].
    rewrite <- (append_assoc l).
    replace (Py.len l + 1) with (Py.len (l +:+ "/"))
      by (rewrite len_append; reflexivity).
    apply slice_append_r.
  - intros url t c Hc Hstrip Ht. unfold _parse_archive_url.
    rewrite (find_absent _ _ Hc). change (-1 + 33) with 32.
    rewrite Hstrip, (find_absent _ _ Ht).
    f_equal; [apply slice_drop_last|apply slice_from_0].
  - intros url Hc Hstrip. unfold _parse_archive_url.
    rewrite (find_absent _ _ Hc). change (-1 + 33) with 32. by rewrite Hstrip.
  - intros url Hc Hlen. unfold _parse_archive_url. rewrite (find_absent _ _ Hc).
    change (-1 + 33) with 32. by rewrite slice_past_end.
  - intros E fuel url a H1 H2. destruct fuel; simpl; by rewrite H1, H2.
Qed.

(** ** C9 *)

Lemma elem_of_generate {A B} (f : A → result B) (l : list A) y :
  y ∈ (generate f l).1 → ∃ x, x ∈ l ∧ f x = Ok y.
Proof.
  induction l as [|x l IH]; simpl; [inversion 1|].
  destruct (f x) as [y'|e] eqn:Hf; [|inversion 1].
  destruct (generate f l) as [ys e]. simpl in *.
  intros Hy. apply elem_of_cons in Hy as [->|Hy].
  - exists x. split; [apply elem_of_cons; auto|done].
  - destruct (IH Hy) as (x' & ? & ?). exists x'. split; [apply elem_of_cons; auto|done].
Qed.

(** C9. Every message that [MailArchive.messages] or
    [MailingList.messages] yields comes from a stored row whose timestamp
    is present, strictly after [since] and strictly before [until]; a row
    without timestamp matches neither range query, whatever the bounds. *)
Theorem C9_range_queries_are_strict `{Externals} :
  (∀ a since until m,
     m ∈ (MailArchive.messages a since until).1 →
     ∃ lo hi t d,
       strptime since = Ok lo ∧ strptime until = Ok hi ∧
       d ∈ db_messages (_db a) ∧ MailArchive.build_message d = Ok m ∧
       doc_timestamp d = Some t ∧ date m = Some t ∧ lo < t < hi) ∧
  (∀ ml b since until m,
     m ∈ (MailingList.messages ml b since until).1 →
     ∃ lo hi t d,
       strptime since = Ok lo ∧ strptime until = Ok hi ∧
       d ∈ db_messages b ∧ doc_list d = _list_name ml ∧
       doc_timestamp d = Some t ∧ lo < t < hi) ∧
  (∀ d name lo hi,
     doc_timestamp d = None →
     Mongo.matches (q_timestamp lo hi) d = false ∧
     Mongo.matches (q_list_timestamp name lo hi) d = false).
Proof.
  split_and!.
  - intros a since until m. unfold MailArchive.messages.
    destruct (strptime since) as [lo|e]; [|inversion 1].
    destruct (strptime until) as [hi|e]; [|inversion 1].
    intros Hm. apply elem_of_generate in Hm as (d & Hd & Hb).
    apply elem_of_find in Hd as [Hd Hq].
    apply matches_q_timestamp in Hq as (t & Ht & Hrange).
    unfold MailArchive.build_message in Hb. injection Hb as <-.
    exists lo, hi, t, d. cbn [date]. done.
  - intros ml b since until m. unfold MailingList.messages.
    destruct (strptime since) as [lo|e]; [|inversion 1].
    destruct (strptime until) as [hi|e]; [|inversion 1].
    intros Hm. apply elem_of_generate in Hm as (d & Hd & Hb).
    apply elem_of_find in Hd as [Hd Hq].
    apply matches_q_list_timestamp in Hq as (Hl & t & Ht & Hrange).
    exists lo, hi, t, d. done.
  - intros d name lo hi Hnone. split.
    + destruct (Mongo.matches (q_timestamp lo hi) d) eqn:Hq; [|done].
      apply matches_q_timestamp in Hq as (t & Ht & _). congruence.
    + destruct (Mongo.matches (q_list_timestamp name lo hi) d) eqn:Hq; [|done].
      apply matches_q_list_timestamp in Hq as (_ & t & Ht & _). congruence.
Qed.

(** [MailingList.messages] yields nothing at all: building the first
    selected row raises. *)
Lemma list_messages_yield_nothing `{Externals} ml b since until :
  (MailingList.messages ml b since until).1 = [].
Proof.
  unfold MailingList.messages.
  destruct (strptime since) as [lo|e]; [|done].
  destruct (strptime until) as [hi|e]; [|done].
  destruct (Mongo.find _ _) as [|d l]; [done|]. simpl.
  unfold MailingList.build_message. by destruct (doc_headers d !! "From").
Qed.

(** * The claims on the scenario *)

Import Fixture.

(** ** C1 *)

(** C1. The unique index holds after any sequence of runs of [update],
    on any lists and however each run ends: no run leaves two records
    under one (list, imap_uid).  But a stored UID whose size has changed
    is not re-ingested: in the scenario the row of UID 42 has size 107,
    the folder holds UID 42 with 113 bytes, and the run raises
    [AttributeError] and leaves the old row as the one record under the
    key. *)
Theorem C1_stale_record_not_replaced :
  (∀ (E : Externals) runs b,
     unique_index (db_messages b) →
     unique_index (db_messages (@run_updates E runs b))) ∧
  (doc_size Scenario.stored_row = 107 ∧
   (rfc822_size <$> Scenario.folder_v2 !! 42) = Some 113 ∧
   Scenario.second_sync.2 = Raise AttributeError ∧
   Mongo.find (q_list_imap_uid "example-list" 42)
              (db_messages (backend Scenario.second_sync.1))
   = [Scenario.stored_row]).
Proof.
  split.
  - intros E runs b. apply run_updates_unique.
  - split_and!; vm_compute; reflexivity.
Qed.

Lemma C1_witness : unique_index (db_messages Scenario.two_runs).
Proof.
  destruct C1_stale_record_not_replaced as [Hruns _].
  apply (Hruns Fixture.externals). apply (bool_decide_unpack _). vm_compute. exact I.
Defined.

(** ** C2 *)

Lemma C2_witness :
  Scenario.first_sync_again.2 = Ok [] ∧
  MailingList.num_messages (self Scenario.first_sync_again.1) = 1 ∧
  db_messages (backend Scenario.first_sync_again.1)
  = db_messages (backend Scenario.first_sync.1).
Proof.
  destruct (@C2_second_run_is_idle Fixture.externals
              Scenario.list_handle Scenario.folder_v1 1 2 empty_backend
              Scenario.first_sync.1 [42])
    as (H2 & H3 & H4 & _).
  - apply (bool_decide_unpack _). vm_compute. exact I.
  - apply (bool_decide_unpack _). vm_compute. exact I.
  - vm_compute. reflexivity.
  - split_and!; [exact H2|exact H3|exact H4].
Defined.

(** C2, as stated, fails with a server that reports another size than
    the length of the message it delivers: the first run on an empty
    cache stores the message with the length of its bytes, and the second
    run on the unchanged folder finds the row of another size and raises
    instead of returning the empty list. *)
Lemma C2_counterexample :
  let r1 := run_update Scenario.list_handle Scenario.misreported_folder 1
                       empty_backend in
  let r2 := run_update (self r1.1) Scenario.misreported_folder 2 (backend r1.1) in
  r1.2 = Ok [42] ∧ r2.2 = Raise AttributeError ∧ r2.2 ≠ Ok [].
Proof.
  cbn zeta. split_and!.
  - vm_compute. reflexivity.
  - vm_compute. reflexivity.
  - vm_compute. discriminate.
Qed.

(** ** C3 *)

(** C3. The code at a cached row whose size differs from the size that
    the server reports: in the scenario the row of UID 42 has size 107
    and the folder holds UID 42 with 113 bytes; the run raises
    [AttributeError] at [cache_file.delete()] and leaves the handle and
    the database as they were: the stale row and its blob are still
    there, nothing is fetched, and no row has the new size. *)
Theorem C3_size_mismatch_raises :
  let b := backend Scenario.first_sync.1 in
  let r := Scenario.second_sync in
  db_messages b = [Scenario.stored_row] ∧
  doc_size Scenario.stored_row = 107 ∧
  (rfc822_size <$> Scenario.folder_v2 !! 42) = Some 113 ∧
  is_Some (fs_files b !! doc_gridfs_id Scenario.stored_row) ∧
  r.2 = Raise AttributeError ∧
  r.1 = Scenario.first_sync.1 ∧
  db_messages (backend r.1) = [Scenario.stored_row] ∧
  fs_files (backend r.1) = fs_files b ∧
  Mongo.find [("size", Mongo.Eq (BInt 113))] (db_messages (backend r.1)) = [].
Proof.
  cbn zeta. split_and!; try (vm_compute; reflexivity).
  vm_compute. eauto.
Qed.

(** ** C4 *)


(** ** C5 *)

(** C5. The code at a cached UID: in the scenario, UID 42 is stored and
    [raw_message] returns its parsed message, but the point lookup
    [message] raises [AttributeError] instead of returning the record;
    at an absent UID both raise [UnboundLocalError]. *)
Theorem C5_message_raises_when_cached :
  let ml := self Scenario.first_sync.1 in
  let b := backend Scenario.first_sync.1 in
  Mongo.find_one (q_list_imap_uid "example-list" 42) (db_messages b)
  = Some Scenario.stored_row ∧
  is_ok (MailingList.raw_message ml b 42) = true ∧
  MailingList.message ml b 42 = Raise AttributeError ∧
  MailingList.raw_message ml b 43 = Raise UnboundLocalError ∧
  MailingList.message ml b 43 = Raise UnboundLocalError.
Proof. vm_compute. repeat split. Qed.

(** ** C6 *)

(** C6. The code at a cached message that carries the permalink: in the
    scenario the message of UID 42 has the permalink in [Archived-At], the
    handle that the facade makes maps the hash [abc123] to 42 and
    [raw_message] finds the message, but resolving the permalink raises
    [AttributeError], as the point lookup by UID does: neither returns a
    message. *)
Theorem C6_resolve_raises :
  let b := backend Scenario.first_sync.1 in
  let a := MailArchive.__init__ b in
  let r := MailArchive.message_from_archive_url 10 Scenario.permalink a in
  (∃ data, fs_files b !! doc_gridfs_id Scenario.stored_row = Some data ∧
           msg_getitem (message_from_bytes data) "Archived-At"
           = Some Scenario.permalink) ∧
  (∃ ml, _mailing_lists r.1 !! "example-list" = Some ml ∧
         _archive_urls ml !! "abc123" = Some 42 ∧
         is_ok (MailingList.raw_message ml b 42) = true ∧
         MailingList.message ml b 42 = Raise AttributeError) ∧
  r.2 = Raise AttributeError.
Proof.
  cbn zeta. split_and!.
  - eexists. split; vm_compute; reflexivity.
  - eexists. split_and!; vm_compute; reflexivity.
  - vm_compute. reflexivity.
Qed.

(** ** C7 *)




(** ** C8 *)

Lemma C8_witness :
  _parse_archive_url "http://example.com/" = ("", "") ∧
  _parse_archive_url "ftp://ftp.example.org/pub/ietf-mail-archive"
  = ("ail-archiv", "ail-archive") ∧
  _parse_archive_url "ftp://ftp.example.org/pub/ietf-mail-archive/quic/2020-01.mail"
  = ("ail-archive", "quic/2020-01.mail") ∧
  (MailArchive.message_from_archive_url 10 "http://example.com/"
     (MailArchive.__init__ empty_backend)).2 = Raise RuntimeError.
Proof.
  destruct C8_parse_never_fails as (Hslash & Hnone & _ & Hshort & Hfacade).
  split_and!.
  - apply Hshort; [vm_compute; reflexivity|vm_compute; discriminate].
  - apply (Hnone _ "ail-archiv" "e"%char); vm_compute; reflexivity.
  - apply (Hslash _ "ail-archive" "quic/2020-01.mail"); vm_compute; reflexivity.
  - rewrite (Hfacade Fixture.externals); [reflexivity| |]; vm_compute; reflexivity.
Defined.

(** C8, as stated, fails at a URL without the marker: the function
    returns a pair there. *)
Lemma C8_counterexample :
  Py.contains "://mailarchive.ietf.org/arch/msg" "http://example.com/" = false ∧
  _parse_archive_url "http://example.com/" = ("", "") ∧
  _parse_archive_url "ftp://ftp.example.org/pub/ietf-mail-archive/quic/2020-01.mail"
  = ("ail-archive", "quic/2020-01.mail").
Proof. vm_compute. repeat split. Qed.

(** ** C9 *)

Lemma C9_witness :
  ∃ m, (MailArchive.messages Scenario.dated_archive since_default until_default).1
       = [m] ∧
       ∃ t, date m = Some t ∧ 0 < t < 2147483647.
Proof.
  destruct (@C9_range_queries_are_strict Fixture.externals) as (Harchive & _ & _).
  destruct (MailArchive.messages Scenario.dated_archive since_default until_default)
    as [[|m [|m' l]] e] eqn:Hm; try (vm_compute in Hm; discriminate).
  exists m. split; [reflexivity|].
  destruct (Harchive Scenario.dated_archive since_default until_default m)
    as (lo & hi & t & d & Hlo & Hhi & _ & _ & _ & Hdate & Hrange).
  - rewrite Hm. apply elem_of_cons. by left.
  - exists t. split; [exact Hdate|].
    vm_compute in Hlo, Hhi. injection Hlo as <-. injection Hhi as <-. exact Hrange.
Defined.

(** ** C10 *)

(** C10. A run of [update] that returns has added to the in-memory count
    exactly the number of UIDs it returns, from any state.  But a row of
    another size is not re-fetched and not counted: in the scenario the
    count is 1 with one stored row, the run on the folder that holds
    UID 42 with another size raises [AttributeError], and the count is
    still 1 with one stored row afterwards. *)
Theorem C10_repair_not_counted :
  (∀ (E : Externals) ml mailbox now b new_ids,
     (@run_update E ml mailbox now b).2 = Ok new_ids →
     MailingList.num_messages (self (@run_update E ml mailbox now b).1)
     = MailingList.num_messages ml + Z.of_nat (length new_ids)) ∧
  (MailingList.num_messages (self Scenario.first_sync.1) = 1 ∧
   Mongo.count (q_list "example-list") (db_messages (backend Scenario.first_sync.1)) = 1 ∧
   Scenario.second_sync.2 = Raise AttributeError ∧
   MailingList.num_messages (self Scenario.second_sync.1) = 1 ∧
   Mongo.count (q_list "example-list") (db_messages (backend Scenario.second_sync.1)) = 1).
Proof.
  split.
  - intros E ml mailbox now b new_ids Hok.
    destruct (@run_update E ml mailbox now b) as [s' r] eqn:Hrun.
    cbn [fst snd] in *. subst r.
    exact (@update_count E ml mailbox now b s' new_ids Hrun).
  - split_and!; vm_compute; reflexivity.
Qed.

Lemma C10_witness :
  MailingList.num_messages (self Scenario.first_sync.1) = 0 + 1.
Proof.
  destruct C10_repair_not_counted as (Hcount & _).
  apply (Hcount Fixture.externals Scenario.list_handle Scenario.folder_v1 1
           empty_backend [42]).
  vm_compute. reflexivity.
Defined.

(** * Further properties of the code *)

(** ** [_parse_archive_url] on permalinks *)

(** X1. [_parse_archive_url] inverts the construction of a permalink:
    for a scheme without colon, a list name without slash and a text
    [list/hash] that has no white space around it, the URL
    [scheme://mailarchive.ietf.org/arch/msg/list/hash] parses to
    [(list, hash)]; the hash may contain slashes. *)
Theorem X1_parse_archive_url_round_trip pre l h :
  Py.contains ":" pre = false →
  Py.contains "/" l = false →
  Py.strip (l +:+ "/" +:+ h) = l +:+ "/" +:+ h →
  _parse_archive_url
    (pre +:+ "://mailarchive.ietf.org/arch/msg/" +:+ l +:+ "/" +:+ h)
  = (l, h).
Proof.
  intros Hpre Hl Hstrip. unfold _parse_archive_url.
  assert (Py.find (pre +:+ "://mailarchive.ietf.org/arch/msg/" +:+ l +:+ "/" +:+ h)
                  "://mailarchive.ietf.org/arch/msg" = Py.len pre) as ->.
  { unfold Py.find.
    change (pre +:+ "://mailarchive.ietf.org/arch/msg/" +:+ l +:+ "/" +:+ h)
      with (pre +:+ String ":" "//mailarchive.ietf.org/arch/msg"
                +:+ ("/" +:+ l +:+ "/" +:+ h)).
    rewrite find_from_skip by done. lia. }
  assert (Py.slice (pre +:+ "://mailarchive.ietf.org/arch/msg/" +:+ l +:+ "/" +:+ h)
                   (Some (Py.len pre + 33)) None = l +:+ "/" +:+ h) as ->.
  { rewrite <- (append_assoc pre).
    replace (Py.len pre + 33)
      with (Py.len (pre +:+ "://mailarchive.ietf.org/arch/msg/"))
      by (rewrite len_append; reflexivity).
    apply slice_append_r. }
  rewrite Hstrip.
  assert (Py.find (l +:+ "/" +:+ h) "/" = Py.len l) as ->.
  { unfold Py.find.
    change (l +:+ "/" +:+ h) with (l +:+ String "/" "" +:+ h).
    rewrite find_from_skip by done. lia. }
  f_equal.
  - apply slice_append_l.
  - rewrite <- (append_assoc l).
    replace (Py.len l + 1) with (Py.len (l +:+ "/"))
      by (rewrite len_append; reflexivity).
    apply slice_append_r.
Qed.

Lemma X1_witness :
  _parse_archive_url "https://mailarchive.ietf.org/arch/msg/quic/a1/b2" = ("quic", "a1/b2").
Proof.
  apply (X1_parse_archive_url_round_trip "https" "quic" "a1/b2");
    vm_compute; reflexivity.
Defined.

(** X2. A permalink without a slash after the list name: [str.find]
    returns -1 there, so the list name is the text after the marker
    without its last character, and the hash is the whole text. *)
Theorem X2_parse_archive_url_no_slash pre t c :
  Py.contains ":" pre = false →
  Py.contains "/" (t +:+ String c "") = false →
  Py.strip (t +:+ String c "") = t +:+ String c "" →
  _parse_archive_url
    (pre +:+ "://mailarchive.ietf.org/arch/msg/" +:+ t +:+ String c "")
  = (t, t +:+ String c "").
Proof.
  intros Hpre Ht Hstrip. unfold _parse_archive_url.
  assert (Py.find (pre +:+ "://mailarchive.ietf.org/arch/msg/" +:+ t +:+ String c "")
                  "://mailarchive.ietf.org/arch/msg" = Py.len pre) as ->.
  { unfold Py.find.
    change (pre +:+ "://mailarchive.ietf.org/arch/msg/" +:+ t +:+ String c "")
      with (pre +:+ String ":" "//mailarchive.ietf.org/arch/msg"
                +:+ ("/" +:+ t +:+ String c "")).
    rewrite find_from_skip by done. lia. }
  assert (Py.slice (pre +:+ "://mailarchive.ietf.org/arch/msg/" +:+ t +:+ String c "")
                   (Some (Py.len pre + 33)) None = t +:+ String c "") as ->.
  { rewrite <- (append_assoc pre).
    replace (Py.len pre + 33)
      with (Py.len (pre +:+ "://mailarchive.ietf.org/arch/msg/"))
      by (rewrite len_append; reflexivity).
    apply slice_append_r. }
  rewrite Hstrip, (find_absent _ _ Ht).
  f_equal; [apply slice_drop_last|apply slice_from_0].
Qed.

Lemma X2_witness :
  _parse_archive_url "https://mailarchive.ietf.org/arch/msg/quic" = ("qui", "quic").
Proof.
  apply (X2_parse_archive_url_no_slash "https" "qui" "c"); vm_compute; reflexivity.
Defined.

(** ** What a run of [update] does to the rest of the cache *)

Section Rest.
Context `{Externals}.

Lemma filter_new_records (P : Document → bool) name gid items :
  (∀ d, P d = true → doc_list d ≠ name) →
  List.filter P (new_records name gid items) = [].
Proof.
  intros HP. revert gid. induction items as [|[msg_id msg] items IH]; intros gid; [done|].
  cbn [new_records List.filter]. rewrite IH.
  destruct (P (record_of _ _ _ _)) eqn:Hd; [|done].
  apply HP in Hd. destruct Hd. apply record_of_fields.
Qed.

(** The rows before a run are the first rows after it; what follows
    them are the records of fetched messages. *)
Lemma rows_after_update ml mailbox now b :
  unique_index (db_messages b) →
  ∃ items,
    db_messages (backend (run_update ml mailbox now b).1)
    = db_messages b ++ new_records (_list_name ml) (fs_next b) items ∧
    fs_files (backend (run_update ml mailbox now b).1) = fs_files (store_all items b) ∧
    ∀ msg_id msg, (msg_id, msg) ∈ items → mailbox !! msg_id = Some msg.
Proof.
  intros Hu.
  destruct (update_cases ml mailbox now b Hu)
    as [(_ & e & -> & _)|(_ & b' & -> & Hrows & Hfiles & _)].
  - exists []. cbn [fst backend new_records store_all foldl].
    rewrite app_nil_r. split_and!; [done..|]. intros ?? Hin. inversion Hin.
  - eexists. cbn [fst backend]. split_and!; [exact Hrows|exact Hfiles|].
    intros msg_id msg Hin. apply elem_of_list_filter in Hin as [Hin _].
    by apply elem_of_imap_items.
Qed.

Lemma find_after_update (P : Document → bool) ml mailbox now b :
  unique_index (db_messages b) → (∀ d, P d = true → doc_list d ≠ _list_name ml) →
  List.filter P (db_messages (backend (run_update ml mailbox now b).1))
  = List.filter P (db_messages b).
Proof.
  intros Hu HP.
  destruct (rows_after_update ml mailbox now b Hu) as (items & -> & _).
  rewrite List.filter_app, filter_new_records by done. apply app_nil_r.
Qed.

Lemma files_after_update ml mailbox now b d :
  wf_backend b → d ∈ db_messages b →
  fs_files (backend (run_update ml mailbox now b).1) !! doc_gridfs_id d
  = fs_files b !! doc_gridfs_id d.
Proof.
  intros Hwf Hd.
  destruct (rows_after_update ml mailbox now b (wf_unique _ Hwf))
    as (items & _ & -> & _).
  apply store_all_old. by apply wf_row_gid_lt.
Qed.

Lemma new_records_blobs name items b d :
  d ∈ new_records name (fs_next b) items →
  ∃ msg_id msg, (msg_id, msg) ∈ items ∧
    d = record_of name msg_id (doc_gridfs_id d) (rfc822 msg) ∧
    fs_files (store_all items b) !! doc_gridfs_id d = Some (rfc822 msg).
Proof.
  revert b. induction items as [|[i m] items IH]; intros b Hd.
  - inversion Hd.
  - cbn [new_records] in Hd. rewrite store_all_cons.
    apply elem_of_cons in Hd as [->|Hd].
    + exists i, m.
      destruct (record_of_fields name i (fs_next b) (rfc822 m)) as (_ & _ & -> & _).
      split_and!; [apply elem_of_cons; auto|done|].
      rewrite store_all_old by (simpl; lia).
      cbn [store_one fs_files set_next set_files fst snd]. apply lookup_insert_eq.
    + destruct (IH (store_one (rfc822 m) b) Hd) as (i' & m' & Hin & Heq & Hblob).
      exists i', m'. split_and!; [apply elem_of_cons; auto|done..].
Qed.

End Rest.

(** X3. What [update] stores can be read back: after a run from a
    well-formed cache, [raw_message] of a UID that the run returns is the
    parsed form of the bytes that the server holds for that UID. *)
Theorem X3_raw_message_after_update `{Externals} ml mailbox now b msg_id msg new_ids :
  wf_backend b → mailbox !! msg_id = Some msg →
  (run_update ml mailbox now b).2 = Ok new_ids → msg_id ∈ new_ids →
  MailingList.raw_message (self (run_update ml mailbox now b).1)
    (backend (run_update ml mailbox now b).1) msg_id
  = Ok (message_from_bytes (rfc822 msg)).
Proof.
  intros Hwf Hmsg Hok Hin.
  pose proof (update_unique ml mailbox now b (wf_unique _ Hwf)) as Hu.
  destruct (run_update ml mailbox now b) as [s' r] eqn:Hrun.
  cbn [fst snd] in *. subst r.
  destruct (update_ok ml mailbox now b s' new_ids (wf_unique _ Hwf) Hrun)
    as (_ & -> & Hself & Hrows & Hfiles & _).
  apply list_elem_of_fmap in Hin as ([i m] & -> & Hin). cbn [fst] in *.
  assert (m = msg) as ->.
  { apply elem_of_list_filter in Hin as [Hin _].
    apply elem_of_imap_items in Hin. congruence. }
  destruct (new_records_stored (_list_name ml) _ b i msg Hin)
    as (g & _ & Hd & Hblob).
  destruct (record_of_fields (_list_name ml) i g (rfc822 msg)) as (Hl & Hi & Hg & _).
  assert (record_of (_list_name ml) i g (rfc822 msg) ∈ db_messages (backend s'))
    as Hrow by (rewrite Hrows; apply elem_of_app; by right).
  pose proof (find_by_key _ _ Hu Hrow) as Hfind. rewrite Hl, Hi in Hfind.
  unfold MailingList.raw_message, Mongo.find_one.
  rewrite Hself. cbn [_list_name set_last_updated]. rewrite index_all_name, Hfind.
  cbn [head]. by rewrite Hg, Hfiles, Hblob.
Qed.

(** X4. A run of [update] on one list leaves the other lists as they
    were: for a handle of another list, [raw_message] and
    [message_indices] give after the run what they gave before it. *)
Theorem X4_update_leaves_other_lists `{Externals} ml mailbox now b other :
  wf_backend b → _list_name other ≠ _list_name ml →
  let b' := backend (run_update ml mailbox now b).1 in
  (∀ msg_id, MailingList.raw_message other b' msg_id
             = MailingList.raw_message other b msg_id) ∧
  MailingList.message_indices other b' = MailingList.message_indices other b.
Proof.
  intros Hwf Hother. cbn zeta. split.
  - intros msg_id. unfold MailingList.raw_message, Mongo.find_one, Mongo.find.
    rewrite find_after_update; [|apply Hwf|].
    2:{ intros d Hd. rewrite matches_q_list_imap_uid in Hd.
        apply bool_decide_eq_true in Hd. injection Hd as -> _. done. }
    destruct (List.filter _ (db_messages b)) as [|d l] eqn:Hf; [done|].
    cbn [head].
    assert (d ∈ db_messages b) as Hd.
    { assert (d ∈ Mongo.find (q_list_imap_uid (_list_name other) msg_id)
                    (db_messages b)) as Hd
        by (unfold Mongo.find; rewrite Hf; apply elem_of_cons; auto).
      by apply elem_of_find in Hd as [Hd _]. }
    by rewrite files_after_update.
  - unfold MailingList.message_indices, Mongo.find. cbn zeta.
    rewrite find_after_update; [done|apply Hwf|].
    intros d Hd. rewrite matches_q_list in Hd.
    apply bool_decide_eq_true in Hd. by rewrite Hd.
Qed.

(** X5. [update] never removes or changes a stored row or its blob: the
    rows before a run are the first rows after it, however the run ends,
    and the blob of each of them is what it was.  Rows of messages that
    the server no longer has, rows of another size and rows of other
    lists all stay. *)
Theorem X5_update_never_removes `{Externals} ml mailbox now b :
  wf_backend b →
  let b' := backend (run_update ml mailbox now b).1 in
  db_messages b `prefix_of` db_messages b' ∧
  ∀ d, d ∈ db_messages b →
    fs_files b' !! doc_gridfs_id d = fs_files b !! doc_gridfs_id d.
Proof.
  intros Hwf. cbn zeta. split.
  - destruct (rows_after_update ml mailbox now b (wf_unique _ Hwf))
      as (items & -> & _).
    by eexists.
  - intros d Hd. by apply files_after_update.
Qed.

(** X6. After a run of [update] that returns, from a well-formed cache
    and with a server that reports as size the length of each message,
    every message of the folder is cached: it has a row of the server's
    size, and [message_indices] lists its UID. *)
Theorem X6_update_covers_folder `{Externals} ml mailbox now b new_ids msg_id msg :
  wf_backend b → imap_consistent mailbox → mailbox !! msg_id = Some msg →
  let r := run_update ml mailbox now b in
  r.2 = Ok new_ids →
  (∃ c, c ∈ db_messages (backend r.1) ∧
        Mongo.index_key c = (_list_name ml, msg_id) ∧
        doc_size c = rfc822_size msg) ∧
  msg_id ∈ MailingList.message_indices (self r.1) (backend r.1).
Proof.
  intros Hwf Hcons Hmsg. cbn zeta. intros Hok.
  destruct (run_update ml mailbox now b) as [s' r] eqn:Hrun.
  cbn [fst snd] in *. subst r.
  destruct (update_covers ml mailbox now b s' new_ids msg_id msg
              (wf_unique _ Hwf) Hcons Hrun Hmsg) as (c & Hc & Hk & Hsz).
  split; [by exists c|].
  assert (_list_name (self s') = _list_name ml) as Hname.
  { destruct (update_ok ml mailbox now b s' new_ids (wf_unique _ Hwf) Hrun)
      as (_ & _ & -> & _).
    cbn [_list_name set_last_updated]. apply index_all_name. }
  unfold MailingList.message_indices, Py.sorted. cbn zeta.
  rewrite merge_sort_Permutation, Hname.
  injection Hk as Hl Hi. rewrite <- Hi.
  apply list_elem_of_fmap_2. apply elem_of_find. split; [done|].
  rewrite matches_q_list. by apply bool_decide_eq_true.
Qed.

(** X7. Runs of [update] keep the cache well-formed (unique keys, every
    row's blob in the bucket, no blob shared, file ids below the next
    fresh one), so after any sequence of runs from a well-formed cache
    [raw_message] returns a message for every stored row. *)
Theorem X7_runs_keep_blobs `{Externals} runs b :
  wf_backend b →
  wf_backend (run_updates runs b) ∧
  ∀ d ml, d ∈ db_messages (run_updates runs b) → _list_name ml = doc_list d →
    ∃ data, fs_files (run_updates runs b) !! doc_gridfs_id d = Some data ∧
            MailingList.raw_message ml (run_updates runs b) (doc_imap_uid d)
            = Ok (message_from_bytes data).
Proof.
  intros Hwf. pose proof (wf_backend_run_updates runs b Hwf) as Hwf'.
  split; [done|]. intros d ml Hd Hl.
  destruct Hwf' as [Hu Hb _ _]. rewrite Forall_forall in Hb.
  destruct (Hb d Hd) as [data Hdata]. exists data. split; [done|].
  unfold MailingList.raw_message, Mongo.find_one.
  rewrite Hl, (find_by_key _ _ Hu Hd). cbn [head]. by rewrite Hdata.
Qed.

Lemma X3_witness :
  MailingList.raw_message (self Scenario.first_sync.1)
    (backend Scenario.first_sync.1) 42
  = Ok (message_from_bytes
          (rfc822 (remote (mail Scenario.permalink "100" "hello")))).
Proof.
  apply (@X3_raw_message_after_update Fixture.externals Scenario.list_handle
           Scenario.folder_v1 1 empty_backend 42 _ [42]).
  - apply (bool_decide_unpack _). vm_compute. exact I.
  - vm_compute. reflexivity.
  - vm_compute. reflexivity.
  - apply elem_of_cons. by left.
Defined.

Lemma X4_witness :
  MailingList.message_indices Scenario.other_handle (backend Scenario.both_sync.1)
  = [7] ∧
  is_ok (MailingList.raw_message Scenario.other_handle
           (backend Scenario.both_sync.1) 7) = true ∧
  Scenario.both_sync.2 = Ok [42].
Proof.
  destruct (@X4_update_leaves_other_lists Fixture.externals
              Scenario.list_handle Scenario.folder_v1 2
              (backend Scenario.other_sync.1) Scenario.other_handle)
    as [Hraw Hidx].
  - apply (bool_decide_unpack _). vm_compute. exact I.
  - vm_compute. discriminate.
  - split_and!.
    + unfold Scenario.both_sync. rewrite Hidx. vm_compute. reflexivity.
    + unfold Scenario.both_sync. rewrite Hraw. vm_compute. reflexivity.
    + vm_compute. reflexivity.
Defined.

Lemma X5_witness :
  db_messages (backend Scenario.other_sync.1)
  `prefix_of` db_messages (backend Scenario.both_sync.1) ∧
  length (db_messages (backend Scenario.other_sync.1)) = 1%nat.
Proof.
  destruct (@X5_update_never_removes Fixture.externals
              Scenario.list_handle Scenario.folder_v1 2
              (backend Scenario.other_sync.1)) as [Hrows _].
  - apply (bool_decide_unpack _). vm_compute. exact I.
  - split; [exact Hrows|vm_compute; reflexivity].
Defined.

Lemma X6_witness :
  42 ∈ MailingList.message_indices (self Scenario.first_sync.1)
         (backend Scenario.first_sync.1).
Proof.
  destruct (@X6_update_covers_folder Fixture.externals Scenario.list_handle
              Scenario.folder_v1 1 empty_backend [42] 42
              (remote (mail Scenario.permalink "100" "hello"))) as [_ Hin].
  - apply (bool_decide_unpack _). vm_compute. exact I.
  - apply (bool_decide_unpack _). vm_compute. exact I.
  - vm_compute. reflexivity.
  - vm_compute. reflexivity.
  - exact Hin.
Defined.

Lemma X7_witness : wf_backend Scenario.two_runs.
Proof.
  apply (@X7_runs_keep_blobs Fixture.externals
           [(Scenario.list_handle, Scenario.folder_v1, 1);
            (Scenario.list_handle, Scenario.folder_v2, 2)] empty_backend).
  apply (bool_decide_unpack _). vm_compute. exact I.
Defined.

(** ** The archived-at index *)

Section Index.
Context `{Externals}.

Lemma index_all_snoc items item ml :
  index_all (items ++ [item]) ml = index_one item (index_all items ml).
Proof. unfold index_all. by rewrite foldl_app. Qed.

(** The index maps a hash to the UID of the message that carries it,
    when one fetched message does. *)
Lemma index_all_lookup items ml msg_id msg aa :
  (msg_id, msg) ∈ items →
  msg_getitem (message_from_bytes (rfc822 msg)) "Archived-At" = Some aa →
  (∀ uid' msg' aa', (uid', msg') ∈ items →
     msg_getitem (message_from_bytes (rfc822 msg')) "Archived-At" = Some aa' →
     (_parse_archive_url aa').2 = (_parse_archive_url aa).2 → uid' = msg_id) →
  _archive_urls (index_all items ml) !! (_parse_archive_url aa).2 = Some msg_id.
Proof.
  induction items as [|[i m] items IH] using rev_ind; intros Hin Haa Honly.
  - inversion Hin.
  - rewrite index_all_snoc. unfold index_one. cbn [fst snd].
    destruct (msg_getitem (message_from_bytes (rfc822 m)) "Archived-At")
      as [aa'|] eqn:Hm.
    + cbn [_archive_urls set_num_messages set_archive_urls].
      destruct (decide ((_parse_archive_url aa').2 = (_parse_archive_url aa).2))
        as [Heq|Hne].
      * rewrite Heq, lookup_insert_eq. f_equal.
        apply (Honly i m aa'); [apply elem_of_app; right; apply elem_of_cons; auto|done..].
      * rewrite lookup_insert_ne by done. apply IH; [|done|].
        -- apply elem_of_app in Hin as [Hin|Hin]; [done|].
           apply elem_of_cons in Hin as [[= -> ->]|Hin]; [|inversion Hin].
           congruence.
        -- intros u m' a' Hu. apply Honly. apply elem_of_app. by left.
    + cbn [_archive_urls set_num_messages]. apply IH; [|done|].
      * apply elem_of_app in Hin as [Hin|Hin]; [done|].
        apply elem_of_cons in Hin as [[= -> ->]|Hin]; [|inversion Hin].
        congruence.
      * intros u m' a' Hu. apply Honly. apply elem_of_app. by left.
Qed.

End Index.

(** X8. After a run of [update] from a well-formed cache, the index of
    the handle maps the hash of the [Archived-At] permalink of a fetched
    message to the UID of that message, when no other message of the
    folder carries that hash; and the index persisted in [aa_cache] is
    the index of the handle. *)
Theorem X8_archived_at_index `{Externals} ml mailbox now b msg_id msg aa new_ids :
  wf_backend b →
  (run_update ml mailbox now b).2 = Ok new_ids → msg_id ∈ new_ids →
  mailbox !! msg_id = Some msg →
  msg_getitem (message_from_bytes (rfc822 msg)) "Archived-At" = Some aa →
  (∀ uid' msg' aa', mailbox !! uid' = Some msg' →
     msg_getitem (message_from_bytes (rfc822 msg')) "Archived-At" = Some aa' →
     (_parse_archive_url aa').2 = (_parse_archive_url aa).2 → uid' = msg_id) →
  let s' := (run_update ml mailbox now b).1 in
  _archive_urls (self s') !! (_parse_archive_url aa).2 = Some msg_id ∧
  db_aa_cache (backend s') !! _list_name ml = Some (_archive_urls (self s')).
Proof.
  intros Hwf Hok Hin Hmsg Haa Honly. cbn zeta.
  destruct (run_update ml mailbox now b) as [s' r] eqn:Hrun.
  cbn [fst snd] in *. subst r.
  destruct (update_ok ml mailbox now b s' new_ids (wf_unique _ Hwf) Hrun)
    as (_ & -> & -> & _ & _ & _ & _ & Hcache).
  apply list_elem_of_fmap in Hin as ([i m] & -> & Hin). cbn [fst] in *.
  assert (m = msg) as ->.
  { apply elem_of_list_filter in Hin as [Hin _].
    apply elem_of_imap_items in Hin. congruence. }
  cbn [_archive_urls set_last_updated]. split.
  - apply (index_all_lookup _ ml i msg aa Hin Haa).
    intros u m' a' Hu. apply elem_of_list_filter in Hu as [Hu _].
    apply elem_of_imap_items in Hu. by apply Honly.
  - rewrite Hcache. rewrite decide_False by (intros Hnil; rewrite Hnil in Hin; inversion Hin).
    apply lookup_insert_eq.
Qed.

(** X9. A handle made after a run of [update] that fetched something
    starts from what the run persisted: [MailingList.__init__] returns a
    handle with the index of the updated handle and with the number of
    stored rows of the list as its count, and leaves the database as it
    is. *)
Theorem X9_init_after_update `{Externals} ml mailbox now b new_ids :
  wf_backend b → (run_update ml mailbox now b).2 = Ok new_ids → new_ids ≠ [] →
  let s' := (run_update ml mailbox now b).1 in
  MailingList.__init__ (backend s') (_list_name ml)
  = (backend s',
     Ok (mkMailingList (_list_name ml)
           (Mongo.count (q_list (_list_name ml)) (db_messages (backend s')))
           (_archive_urls (self s')) None)).
Proof.
  intros Hwf Hok Hne. cbn zeta.
  destruct (run_update ml mailbox now b) as [s' r] eqn:Hrun.
  cbn [fst snd] in *. subst r.
  destruct (update_ok ml mailbox now b s' new_ids (wf_unique _ Hwf) Hrun)
    as (_ & -> & -> & _ & _ & _ & _ & Hcache).
  unfold MailingList.__init__. cbn zeta.
  rewrite Hcache. rewrite decide_False by (intros Hnil; by rewrite Hnil in Hne).
  rewrite lookup_insert_eq. reflexivity.
Qed.

Lemma X8_witness :
  _archive_urls (self Scenario.first_sync.1) !! "abc123" = Some 42 ∧
  db_aa_cache (backend Scenario.first_sync.1) !! "example-list"
  = Some (_archive_urls (self Scenario.first_sync.1)).
Proof.
  apply (@X8_archived_at_index Fixture.externals Scenario.list_handle
           Scenario.folder_v1 1 empty_backend 42
           (remote (mail Scenario.permalink "100" "hello")) Scenario.permalink [42]).
  - apply (bool_decide_unpack _). vm_compute. exact I.
  - vm_compute. reflexivity.
  - apply elem_of_cons. by left.
  - vm_compute. reflexivity.
  - vm_compute. reflexivity.
  - intros uid' msg' aa' Hm _ _.
    destruct (decide (uid' = 42)) as [->|Hne]; [done|].
    unfold Scenario.folder_v1 in Hm. by rewrite lookup_singleton_ne in Hm.
Defined.

Lemma X9_witness :
  (MailingList.__init__ (backend Scenario.first_sync.1) "example-list").2
  = Ok (mkMailingList "example-list" 1 (_archive_urls (self Scenario.first_sync.1)) None).
Proof.
  refine (f_equal snd
    (@X9_init_after_update Fixture.externals Scenario.list_handle
       Scenario.folder_v1 1 empty_backend [42] _ _ _)).
  - apply (bool_decide_unpack _). vm_compute. exact I.
  - vm_compute. reflexivity.
  - discriminate.
Defined.

(** ** Handles *)

Lemma list_messages_end `{Externals} ml b since until lo hi :
  strptime since = Ok lo → strptime until = Ok hi →
  MailingList.messages ml b since until
  = match Mongo.find (q_list_timestamp (_list_name ml) lo hi) (db_messages b) with
    | [] => ([], None)
    | d :: _ => ([], Some (match doc_headers d !! "From" with
                           | Some _ => AttributeError
                           | None => KeyError
                           end))
    end.
Proof.
  intros Hlo Hhi. unfold MailingList.messages. rewrite Hlo, Hhi.
  destruct (Mongo.find _ _) as [|d l]; [done|]. cbn [generate].
  unfold MailingList.build_message. by destruct (doc_headers d !! "From").
Qed.

(** X10. A handle for a list without persisted index: the constructor
    scans the dated messages of the list.  When the list has none in the
    default range it stores an empty index and returns a handle that
    counts the rows of the list; when the list has one, the scan raises
    ([KeyError] for a first row without [From] header, [AttributeError]
    otherwise) and the constructor with it, leaving the database as it
    was. *)
Theorem X10_init_without_index `{Externals} b name lo hi :
  db_aa_cache b !! name = None →
  strptime since_default = Ok lo → strptime until_default = Ok hi →
  let dated := Mongo.find (q_list_timestamp name lo hi) (db_messages b) in
  (dated = [] →
   MailingList.__init__ b name
   = (set_aa_cache (<[name := ∅]> (db_aa_cache b)) b,
      Ok (mkMailingList name (Mongo.count (q_list name) (db_messages b)) ∅ None))) ∧
  (∀ d l, dated = d :: l →
     MailingList.__init__ b name
     = (b, Raise (match doc_headers d !! "From" with
                  | Some _ => AttributeError
                  | None => KeyError
                  end))).
Proof.
  intros Hnone Hlo Hhi. cbn zeta.
  unfold MailingList.__init__. cbn zeta. rewrite Hnone.
  rewrite (list_messages_end _ b _ _ lo hi Hlo Hhi). cbn [_list_name].
  destruct (Mongo.find _ _) as [|d l]; split; try done.
  intros d' l' [= <- _]. reflexivity.
Qed.

Lemma bind_ok_inv {A B} (m : M A) (f : A → M B) s s' b :
  (m ≫= f) s = (s', Ok b) → ∃ s1 a, m s = (s1, Ok a) ∧ f a s1 = (s', Ok b).
Proof.
  rewrite bind_eq. destruct (m s) as [s1 [a|e]]; [eauto|discriminate].
Qed.

Lemma update_sets_last_updated `{Externals} ml mailbox now b s' new :
  run_update ml mailbox now b = (s', Ok new) →
  _last_updated (self s') = Some now.
Proof.
  unfold run_update, MailingList.update. intros Hrun.
  apply bind_ok_inv in Hrun as (s1 & list_name & _ & Hrun).
  apply bind_ok_inv in Hrun as (s2 & coll & _ & Hrun).
  apply bind_ok_inv in Hrun as (s3 & msg_fetch & _ & Hrun).
  apply bind_ok_inv in Hrun as (s4 & [cr nm] & _ & Hrun).
  apply bind_ok_inv in Hrun as (s5 & [] & _ & Hrun).
  apply bind_ok_inv in Hrun as (s6 & [] & Hset & Hrun).
  injection Hrun as <- _. by injection Hset as <-.
Qed.

(** X11. [last_updated] raises [AttributeError] on a handle that has not
    been updated, since the constructor does not set the field; after a
    run of [update] that returns, from any state, it gives the time of
    that run. *)
Theorem X11_last_updated `{Externals} :
  (∀ b name b' ml,
     MailingList.__init__ b name = (b', Ok ml) →
     MailingList.last_updated ml = Raise AttributeError) ∧
  (∀ ml mailbox now b s' new_ids,
     run_update ml mailbox now b = (s', Ok new_ids) →
     MailingList.last_updated (self s') = Ok now).
Proof.
  split.
  - intros b name b' ml. unfold MailingList.__init__. cbn zeta.
    destruct (db_aa_cache b !! name).
    + intros [= <- <-]. reflexivity.
    + destruct (MailingList.messages _ _ _ _) as [[|m l] [e|]];
        intros [= <- <-]. reflexivity.
  - intros ml mailbox now b s' new_ids Hrun.
    unfold MailingList.last_updated.
    by rewrite (update_sets_last_updated _ _ _ _ _ _ Hrun).
Qed.

(** X12. [MailArchive.mailing_list] makes a handle once: a call that
    returns a handle leaves an archive on which the same call returns
    the same handle and changes nothing; the call itself does not touch
    the stored messages or blobs. *)
Theorem X12_mailing_list_cached `{Externals} name a a' ml :
  MailArchive.mailing_list name a = (a', Ok ml) →
  MailArchive.mailing_list name a' = (a', Ok ml) ∧
  db_messages (_db a') = db_messages (_db a) ∧
  fs_files (_db a') = fs_files (_db a).
Proof.
  unfold MailArchive.mailing_list.
  destruct (_mailing_lists a !! name) as [ml0|] eqn:Hm.
  - intros [= <- <-]. by rewrite Hm.
  - destruct (MailingList.__init__ (_db a) name) as [b [ml1|e]] eqn:Hinit;
      intros [= <- <-]. cbn [_mailing_lists _db].
    rewrite lookup_insert_eq. split; [done|].
    unfold MailingList.__init__ in Hinit. cbn zeta in Hinit.
    destruct (db_aa_cache (_db a) !! name).
    + by injection Hinit as <- _.
    + destruct (MailingList.messages _ _ _ _) as [[|m l] [e|]];
        injection Hinit as <- _; done.
Qed.

Lemma X10_witness :
  (MailingList.__init__ empty_backend "example-list").2
  = Ok (mkMailingList "example-list" 0 ∅ None) ∧
  (MailingList.__init__ (set_aa_cache ∅ (backend Scenario.first_sync.1))
     "example-list").2 = Raise AttributeError.
Proof.
  split.
  - destruct (@X10_init_without_index Fixture.externals empty_backend
                "example-list" 0 2147483647) as [Hempty _];
      [reflexivity..|].
    rewrite Hempty; reflexivity.
  - destruct (@X10_init_without_index Fixture.externals
                (set_aa_cache ∅ (backend Scenario.first_sync.1))
                "example-list" 0 2147483647) as [_ Hdated];
      [reflexivity..|].
    rewrite (Hdated Scenario.stored_row []); vm_compute; reflexivity.
Defined.

Lemma X11_witness :
  MailingList.last_updated (self Scenario.first_sync.1) = Ok 1 ∧
  MailingList.last_updated Scenario.list_handle = Raise AttributeError.
Proof.
  destruct (@X11_last_updated Fixture.externals) as [Hnew Hrun]. split.
  - apply (Hrun Scenario.list_handle Scenario.folder_v1 1 empty_backend _ [42]).
    vm_compute. reflexivity.
  - apply (Hnew empty_backend "example-list"
             (set_aa_cache (<[ "example-list" := ∅ ]> ∅) empty_backend)).
    vm_compute. reflexivity.
Defined.

Lemma X12_witness :
  let a := MailArchive.__init__ empty_backend in
  MailArchive.mailing_list "example-list" (MailArchive.mailing_list "example-list" a).1
  = MailArchive.mailing_list "example-list" a.
Proof.
  cbn zeta.
  destruct (MailArchive.mailing_list "example-list" (MailArchive.__init__ empty_backend))
    as [a' [ml|e]] eqn:Hcall; [|vm_compute in Hcall; discriminate].
  destruct (@X12_mailing_list_cached Fixture.externals _ _ _ _ Hcall) as [Hsame _].
  exact Hsame.
Defined.

(** ** Queries over the archive *)

Lemma generate_total {A B} (f : A → result B) (g : A → B) (l : list A) :
  (∀ x, f x = Ok (g x)) → generate f l = (g <$> l, None).
Proof.
  intros Hf. induction l as [|x l IH]; [done|].
  cbn [generate]. by rewrite Hf, IH.
Qed.

(** X13. [MailArchive.messages] yields every dated message in range:
    once the two bounds parse, the generator ends without exception,
    yields one message per stored row whose timestamp lies strictly
    between the bounds, and the message of such a row carries the list
    name, the date and the body of the row. *)
Theorem X13_archive_messages_complete `{Externals} a since until lo hi :
  strptime since = Ok lo → strptime until = Ok hi →
  let r := MailArchive.messages a since until in
  r.2 = None ∧
  Z.of_nat (length r.1) = Mongo.count (q_timestamp lo hi) (db_messages (_db a)) ∧
  ∀ d t, d ∈ db_messages (_db a) → doc_timestamp d = Some t → lo < t < hi →
    ∃ m, m ∈ r.1 ∧ MailArchive.build_message d = Ok m ∧
         list_name m = doc_list d ∧ date m = Some t ∧ body m = doc_body d.
Proof.
  intros Hlo Hhi. cbn zeta. unfold MailArchive.messages. rewrite Hlo, Hhi.
  rewrite (generate_total MailArchive.build_message
             (λ d, mkMailingListMessage (doc_list d)
                (get2 (doc_headers d) "Message-ID" "Message-Id")
                (get2 (doc_headers d) "From" "from")
                (get2 (doc_headers d) "Subject" "subject")
                (doc_timestamp d) (doc_headers d !! "In-Reply-To")
                (doc_headers d !! "References") (doc_body d))) by done.
  cbn [fst snd]. split_and!; [done|by rewrite length_fmap|].
  intros d t Hd Ht Hrange. eexists. split_and!.
  - apply list_elem_of_fmap_2. apply elem_of_find. split; [done|].
    apply matches_q_timestamp. eauto.
  - reflexivity.
  - reflexivity.
  - exact Ht.
  - reflexivity.
Qed.

Lemma X13_witness :
  ∃ m, (MailArchive.messages Scenario.dated_archive since_default until_default)
       = ([m], None) ∧ date m = Some 100 ∧ body m = "dated".
Proof.
  destruct (@X13_archive_messages_complete Fixture.externals Scenario.dated_archive
              since_default until_default 0 2147483647) as (Hend & Hlen & _);
    [reflexivity..|].
  destruct (MailArchive.messages Scenario.dated_archive since_default until_default)
    as [[|m [|m' l]] e] eqn:Hm; try (vm_compute in Hlen; discriminate).
  cbn [snd] in Hend. subst e.
  exists m. split; [done|]. vm_compute in Hm. injection Hm as <-. done.
Defined.

(** X14. [MailingList.messages] yields nothing: once the bounds parse,
    the generator ends without exception when no row of the list is
    dated in range, and raises before its first [yield] otherwise
    ([KeyError] when the first such row has no [From] header,
    [AttributeError] when it has one). *)
Theorem X14_list_messages_never_yield `{Externals} ml b since until lo hi :
  strptime since = Ok lo → strptime until = Ok hi →
  let dated := Mongo.find (q_list_timestamp (_list_name ml) lo hi) (db_messages b) in
  let r := MailingList.messages ml b since until in
  r.1 = [] ∧
  (dated = [] → r.2 = None) ∧
  (∀ d l, dated = d :: l →
     r.2 = Some (match doc_headers d !! "From" with
                 | Some _ => AttributeError
                 | None => KeyError
                 end)).
Proof.
  intros Hlo Hhi. cbn zeta.
  rewrite (list_messages_end ml b since until lo hi Hlo Hhi).
  destruct (Mongo.find _ _) as [|d l]; split_and!; try done.
  by intros d' l' [= <- _].
Qed.

Lemma X14_witness :
  MailingList.messages (self Scenario.first_sync.1) (backend Scenario.first_sync.1)
    since_default until_default = ([], Some AttributeError).
Proof.
  destruct (@X14_list_messages_never_yield Fixture.externals
              (self Scenario.first_sync.1) (backend Scenario.first_sync.1)
              since_default until_default 0 2147483647) as (Hnone & _ & Hraise);
    [reflexivity..|].
  destruct (MailingList.messages _ _ _ _) as [ms e]. cbn [fst snd] in *. subst ms.
  f_equal. rewrite (Hraise Scenario.stored_row []); vm_compute; reflexivity.
Defined.

(** X15. No lookup of a message record returns: [MailingList.message],
    [MailingList.message_from_archive_url] and
    [MailArchive.message_from_archive_url] raise for every UID, every URL
    and every state. *)
Theorem X15_lookups_never_return `{Externals} :
  (∀ ml b msg_id, is_ok (MailingList.message ml b msg_id) = false) ∧
  (∀ ml b url, is_ok (MailingList.message_from_archive_url ml b url) = false) ∧
  (∀ fuel url a, is_ok (MailArchive.message_from_archive_url fuel url a).2 = false).
Proof.
  split_and!.
  - intros ml b msg_id. by destruct (message_raises ml b msg_id) as [e ->].
  - intros ml b url.
    by destruct (list_message_from_archive_url_raises ml b url) as [e ->].
  - intros fuel url a.
    by destruct (message_from_archive_url_raises fuel url a) as [e ->].
Qed.

(** ** The folders of the server *)


Lemma mailing_list_names_cons n rest :
  MailArchive.mailing_list_names (("Shared Folders/" +:+ n) :: rest)
  = (n :: (MailArchive.mailing_list_names rest).1,
     (MailArchive.mailing_list_names rest).2).
Proof.
  cbn [MailArchive.mailing_list_names].
  rewrite decide_False.
  2:{ intros Heq. apply (f_equal Py.len) in Heq. rewrite len_append in Heq.
      unfold Py.len in Heq. simpl in Heq. lia. }
  unfold Py.startswith. rewrite prefix_append.
  change 15 with (Py.len "Shared Folders/"). rewrite slice_append_r.
  by destruct (MailArchive.mailing_list_names rest).
Qed.

(** X16. [mailing_list_names] inverts the naming of the folders that
    [update] selects: on the root folder followed by the folders
    ["Shared Folders/" + name] it yields the names, in order, and ends;
    at a folder that is neither the root nor under it, the generator
    raises [AssertionError] after the names before it. *)
Theorem X16_mailing_list_names :
  (∀ names,
     MailArchive.mailing_list_names
       ("Shared Folders" :: (String.append "Shared Folders/" <$> names))
     = (names, None)) ∧
  (∀ names bad rest,
     bad ≠ "Shared Folders" → Py.startswith bad "Shared Folders/" = false →
     MailArchive.mailing_list_names
       ((String.append "Shared Folders/" <$> names) ++ bad :: rest)
     = (names, Some AssertionError)).
Proof.
  split.
  - intros names. cbn [MailArchive.mailing_list_names].
    rewrite decide_True by done.
    induction names as [|n names IH]; [done|].
    rewrite fmap_cons, mailing_list_names_cons. by rewrite IH.
  - intros names bad rest Hroot Hbad.
    induction names as [|n names IH].
    + cbn [fmap list_fmap app MailArchive.mailing_list_names].
      by rewrite decide_False, Hbad.
    + rewrite fmap_cons. cbn [app]. rewrite mailing_list_names_cons. by rewrite IH.
Qed.

Lemma X16_witness :
  MailArchive.mailing_list_names ["Shared Folders/quic"; "INBOX"; "Shared Folders/tls"]
  = (["quic"], Some AssertionError).
Proof.
  destruct X16_mailing_list_names as [_ Hbad].
  apply (Hbad ["quic"] "INBOX" ["Shared Folders/tls"]); [discriminate|reflexivity].
Defined.

(** ** Downloading every list *)

Section Download.
Context `{Externals}.
Variables (lo hi : Z).
Hypothesis Hlo : strptime since_default = Ok lo.
Hypothesis Hhi : strptime until_default = Ok hi.











End Download.




(** ** What a run adds and what it returns *)

(** X18. A run of [update] from a well-formed cache changes no stored
    row and adds only what it fetched: every row after the run that was
    not there before is the record of a message of the folder, under the
    UID of that message, with the length of its bytes as size, and the
    blob of the row holds those bytes. *)
Theorem X18_update_adds_fetched `{Externals} ml mailbox now b d :
  wf_backend b →
  let b' := backend (run_update ml mailbox now b).1 in
  d ∈ db_messages b' → d ∉ db_messages b →
  ∃ msg_id msg,
    mailbox !! msg_id = Some msg ∧
    Mongo.index_key d = (_list_name ml, msg_id) ∧
    doc_size d = Z.of_nat (length (rfc822 msg)) ∧
    fs_files b' !! doc_gridfs_id d = Some (rfc822 msg) ∧
    MailingList.normalize (_list_name ml) msg_id (doc_gridfs_id d) (rfc822 msg) = Ok d.
Proof.
  intros Hwf. cbn zeta.
  destruct (rows_after_update ml mailbox now b (wf_unique _ Hwf))
    as (items & -> & -> & Hitems).
  intros Hd Hnew. apply elem_of_app in Hd as [Hd|Hd]; [done|].
  apply new_records_blobs in Hd as (i & m & Hin & Heq & Hblob).
  exists i, m.
  destruct (record_of_fields (_list_name ml) i (doc_gridfs_id d) (rfc822 m))
    as (_ & _ & _ & Hsz).
  split_and!; [by apply Hitems| | |done|].
  - rewrite Heq. apply record_of_key.
  - by rewrite Heq.
  - rewrite Heq at 2. apply normalize_ok.
Qed.


(** X20. A stored row of another size than the message that the folder
    holds under its UID stops [update]: the run raises in its first
    loop, [AttributeError] from [cache_file.delete()] or [NoFile] from
    [fs.get], and leaves the handle and the database as they were, so
    that every later run on that folder raises in the same way; in a
    well-formed cache the exception is [AttributeError]. *)
Theorem X20_update_stuck_on_stale `{Externals} ml mailbox now b msg_id msg c :
  unique_index (db_messages b) → c ∈ db_messages b →
  Mongo.index_key c = (_list_name ml, msg_id) →
  mailbox !! msg_id = Some msg → doc_size c ≠ rfc822_size msg →
  let r := run_update ml mailbox now b in
  r.1 = mkEnv ml b ∧
  (r.2 = Raise AttributeError ∨ r.2 = Raise NoFile) ∧
  (wf_backend b → r.2 = Raise AttributeError).
Proof.
  intros Hu Hc Hk Hmsg Hsz. cbn zeta.
  destruct (update_stale ml mailbox now b (msg_id, msg)) as (e & -> & He & Hwf).
  - by apply elem_of_imap_items.
  - unfold stale. cbn [fst snd].
    assert (MailingList.cached_by_uid
              (Mongo.find (q_list (_list_name ml)) (db_messages b)) !! msg_id = Some c)
      as -> by (by apply cached_by_uid_lookup).
    by apply bool_decide_eq_true.
  - cbn [fst snd]. split_and!; [done|by destruct He as [->| ->]; auto|].
    intros [_ Hblobs _ _]. by rewrite Hwf.
Qed.

Lemma X18_witness :
  db_messages (backend Scenario.first_sync.1) = [Scenario.stored_row] ∧
  doc_size Scenario.stored_row = 107.
Proof.
  split; [vm_compute; reflexivity|].
  destruct (@X18_update_adds_fetched Fixture.externals
              Scenario.list_handle Scenario.folder_v1 1 empty_backend
              Scenario.stored_row)
    as (i & m & Hm & _ & Hsz & _).
  - apply (bool_decide_unpack _). vm_compute. exact I.
  - apply (bool_decide_unpack _). vm_compute. exact I.
  - inversion 1.
  - rewrite Hsz. unfold Scenario.folder_v1 in Hm.
    apply lookup_singleton_Some in Hm as [_ <-]. vm_compute. reflexivity.
Defined.


Lemma X20_witness :
  Scenario.second_sync.1 = Scenario.first_sync.1 ∧
  Scenario.second_sync.2 = Raise AttributeError.
Proof.
  destruct (@X20_update_stuck_on_stale Fixture.externals
              (self Scenario.first_sync.1) Scenario.folder_v2 2
              (backend Scenario.first_sync.1) 42
              (remote (mail Scenario.permalink "100" "hello again"))
              Scenario.stored_row) as (Hstate & _ & Hattr).
  - apply (bool_decide_unpack _). vm_compute. exact I.
  - apply (bool_decide_unpack _). vm_compute. exact I.
  - vm_compute. reflexivity.
  - vm_compute. reflexivity.
  - vm_compute. discriminate.
  - split.
    + unfold Scenario.second_sync. rewrite Hstate. by destruct Scenario.first_sync.1.
    + apply Hattr. apply (bool_decide_unpack _). vm_compute. exact I.
Defined.
